(** * wacryptolib.escrow: the trustee ("escrow") API over a key storage

    A shallow embedding of [src/wacryptolib/escrow.py].  Python objects that
    are mutated in place (the key storage held by [self._key_storage], the
    operating system's entropy) live in an explicit [World] that every
    operation threads; exceptions are values of [result]; the class hierarchy
    ([EscrowApi], [ReadonlyEscrowApi]) is a record of overridable methods. *)

From Stdlib Require Import ZArith NArith List Bool Lia Permutation.
From Stdlib Require Import Strings.String Strings.Ascii Init.Byte.
From Stdlib Require Import DecimalString.
From stdpp Require Import gmap strings.
Import ListNotations.

Local Open Scope string_scope.

(** ** Python values used by the module *)

(** [bytes] objects. *)
Definition bytes := list byte.

(** [uuid.UUID]: a 128-bit integer. *)
Definition UUID := N.

(** A serialized keypair, the dict [{"public_key": ..., "private_key": ...}]. *)
Record keypair := Keypair { public_key : bytes; private_key : bytes }.

(** A keypair identifier, the dict [{"keychain_uid": ..., "key_algo": ...}]. *)
Record keypair_identifier := KeypairIdentifier {
  keychain_uid : UUID;
  key_algo : string
}.

Global Instance keypair_identifier_eq_dec : EqDecision keypair_identifier.
Proof. solve_decision. Defined.

(** The exception classes the module raises or catches.  They are unrelated
    by subclassing, so an [except C] clause matches exactly class [C]. *)
Inductive exn_class :=
| KeyDoesNotExist
| KeyAlreadyExists
| KeyLoadingError
| DecryptionError
| AuthorizationError
| ValueError
| AssertionError
| TypeError.

Global Instance exn_class_eq_dec : EqDecision exn_class.
Proof. solve_decision. Defined.

Record exn := Exn { exn_class_of : exn_class; exn_message : string }.

Inductive result (A : Type) :=
| Return (a : A)
| Raise (e : exn).
Arguments Return {A} a.
Arguments Raise {A} e.

Definition is_return {A} (r : result A) : bool :=
  match r with Return _ => true | Raise _ => false end.

Definition raises {A} (r : result A) (cls : exn_class) : Prop :=
  exists msg, r = Raise (Exn cls msg).

(** The value a caller may pass for a [passphrases] parameter annotated
    [Optional[Sequence]]: [None], a list, a tuple, or a bare [str] (itself a
    sequence, of one-character strings). *)
Inductive py_passphrases :=
| PyNone
| PyList (items : list string)
| PyTuple (items : list string)
| PyStr (s : string).

(** Truth value of such an object: [None] and empty sequences are falsy. *)
Definition py_bool (p : py_passphrases) : bool :=
  match p with
  | PyNone => false
  | PyList l | PyTuple l => negb (Nat.eqb (length l) 0)
  | PyStr s => negb (Nat.eqb (String.length s) 0)
  end.

(** [passphrases or []]. *)
Definition or_empty_list (p : py_passphrases) : py_passphrases :=
  if py_bool p then p else PyList [].

(** [isinstance(passphrases, (tuple, list))]. *)
Definition isinstance_tuple_or_list (p : py_passphrases) : bool :=
  match p with
  | PyList _ | PyTuple _ => true
  | PyNone | PyStr _ => false
  end.

(** [len(passphrases)]; [None] has no length. *)
Definition py_len (p : py_passphrases) : result nat :=
  match p with
  | PyList l | PyTuple l => Return (length l)
  | PyStr s => Return (String.length s)
  | PyNone => Raise (Exn TypeError "object of type 'NoneType' has no len()")
  end.

(** The message of the [TypeError] of a list concatenation, with the name
    of the type of the right operand between double quotes. *)
Definition concat_type_error (type_name : string) : string :=
  "can only concatenate list (not "
    ++ String "034"%char (type_name ++ String "034"%char ") to list").

(** [[None] + passphrases]: list concatenation accepts only a list on the
    right. *)
Definition list_None_plus (p : py_passphrases)
  : result (list (option string)) :=
  match p with
  | PyList l => Return (None :: map Some l)
  | PyTuple _ => Raise (Exn TypeError (concat_type_error "tuple"))
  | PyStr _ => Raise (Exn TypeError (concat_type_error "str"))
  | PyNone => Raise (Exn TypeError (concat_type_error "NoneType"))
  end.

(** ** String helpers *)

(** [str.upper()] on ASCII letters; other bytes are kept. *)
Definition upper_ascii (c : ascii) : ascii :=
  let n := nat_of_ascii c in
  if (97 <=? n)%nat && (n <=? 122)%nat then ascii_of_nat (n - 32) else c.

Fixpoint upper (s : string) : string :=
  match s with
  | EmptyString => EmptyString
  | String c s' => String (upper_ascii c) (upper s')
  end.

(** The string holds ASCII characters only; on such strings [upper] is
    [str.upper()]. *)
Fixpoint ascii_only (s : string) : bool :=
  match s with
  | EmptyString => true
  | String c s' => (nat_of_ascii c <? 128)%nat && ascii_only s'
  end.

(** ["%d" % n]. *)
Definition str_of_nat (n : nat) : string :=
  NilZero.string_of_uint (Nat.to_uint n).

Definition hex_digit (d : N) : ascii :=
  match d with
  | 0 => "0" | 1 => "1" | 2 => "2" | 3 => "3" | 4 => "4" | 5 => "5"
  | 6 => "6" | 7 => "7" | 8 => "8" | 9 => "9" | 10 => "a" | 11 => "b"
  | 12 => "c" | 13 => "d" | 14 => "e" | _ => "f"
  end%N%char.

(** ['%032x' % n], for [n] below [2^128]. *)
Fixpoint hex_fixed (width : nat) (n : N) (acc : string) : string :=
  match width with
  | O => acc
  | S w => hex_fixed w (N.div n 16) (String (hex_digit (N.modulo n 16)) acc)
  end.

(** [str(uuid)]: the 8-4-4-4-12 hexadecimal form. *)
Definition str_of_uuid (u : UUID) : string :=
  let h := hex_fixed 32 u EmptyString in
  substring 0 8 h ++ "-" ++ substring 8 4 h ++ "-" ++ substring 12 4 h
    ++ "-" ++ substring 16 4 h ++ "-" ++ substring 20 12 h.

(** ** Key storage *)

(** Modelled from the spec: the key storage class ([wacryptolib.key_storage],
    absent from the sources) as the in-memory store of section 4.A: a map
    from [(keychain_uid, key_algo)] to a keypair, and per algo a pool of free
    keypairs, the most recently added first. *)
Record KeyStorage := mkKeyStorage {
  cached_keypairs : gmap (UUID * string) keypair;
  free_keypairs : gmap string (list keypair)
}.

(** Modelled from the spec: [get_public_key] fails with [KeyDoesNotExist]
    when the pair is absent and reads the storage only. *)
Definition ks_get_public_key (ks : KeyStorage) (uid : UUID) (algo : string)
  : result bytes :=
  match cached_keypairs ks !! (uid, algo) with
  | Some kp => Return (public_key kp)
  | None => Raise (Exn KeyDoesNotExist "public key not found in key storage")
  end.

(** Modelled from the spec: [get_private_key], as [get_public_key]. *)
Definition ks_get_private_key (ks : KeyStorage) (uid : UUID) (algo : string)
  : result bytes :=
  match cached_keypairs ks !! (uid, algo) with
  | Some kp => Return (private_key kp)
  | None => Raise (Exn KeyDoesNotExist "private key not found in key storage")
  end.

(** Modelled from the spec: [set_keys] fails with [KeyAlreadyExists] on a
    second write for the same [(keychain_uid, key_algo)]. *)
Definition ks_set_keys (ks : KeyStorage) (uid : UUID) (algo : string)
    (pub priv : bytes) : result unit * KeyStorage :=
  match cached_keypairs ks !! (uid, algo) with
  | Some _ => (Raise (Exn KeyAlreadyExists "keypair already exists in key storage"), ks)
  | None =>
      (Return tt,
       mkKeyStorage (<[(uid, algo) := Keypair pub priv]> (cached_keypairs ks))
                    (free_keypairs ks))
  end.

(** Modelled from the spec: [get_free_keypairs_count]. *)
Definition ks_get_free_keypairs_count (ks : KeyStorage) (algo : string) : nat :=
  length (default [] (free_keypairs ks !! algo)).

(** Modelled from the spec: [add_free_keypair] puts one keypair into the
    pool of its algo. *)
Definition ks_add_free_keypair (ks : KeyStorage) (algo : string)
    (pub priv : bytes) : KeyStorage :=
  mkKeyStorage (cached_keypairs ks)
    (<[algo := Keypair pub priv :: default [] (free_keypairs ks !! algo)]>
       (free_keypairs ks)).

(** Modelled from the spec: [attach_free_keypair_to_uuid] consumes one free
    keypair of the algo and binds it to the uid in one step; it fails with
    [KeyDoesNotExist] when the pool is empty, and keeps the write-once rule
    of [set_keys]. *)
Definition ks_attach_free_keypair_to_uuid (ks : KeyStorage) (uid : UUID)
    (algo : string) : result unit * KeyStorage :=
  match cached_keypairs ks !! (uid, algo) with
  | Some _ => (Raise (Exn KeyAlreadyExists "keypair already exists in key storage"), ks)
  | None =>
      match default [] (free_keypairs ks !! algo) with
      | [] => (Raise (Exn KeyDoesNotExist "no free keypair available in key storage"), ks)
      | kp :: pool =>
          (Return tt,
           mkKeyStorage (<[(uid, algo) := kp]> (cached_keypairs ks))
                        (<[algo := pool]> (free_keypairs ks)))
      end
  end.

(** ** External primitives *)

(** The functions of [wacryptolib.key_generation], [wacryptolib.signature],
    [wacryptolib.encryption] and [wacryptolib.utilities] that the module
    calls.  Randomised ones consume the entropy state [Rng].  Keypairs are
    always generated with [serialize=True]. *)
Class CryptoPrimitives := {
  Rng : Type;
  Key : Type;
  Signature : Type;
  Cipherdict : Type;
  generate_keypair : string -> option string -> Rng -> result keypair * Rng;
  generate_uuid0 : Rng -> UUID * Rng;
  load_asymmetric_key_from_pem_bytestring :
    bytes -> string -> option string -> result Key;
  sign_message : bytes -> string -> Key -> Rng -> result Signature * Rng;
  _decrypt_via_rsa_oaep : Cipherdict -> Key -> result bytes;
  (** truth value of a key object, as tested by [assert res] *)
  key_truthy : Key -> bool
}.

Definition MAX_PAYLOAD_LENGTH_FOR_SIGNATURE : nat := 128.

Record keypair_statuses_t := mkStatuses {
  missing_private_key : list keypair_identifier;
  authorization_missing : list keypair_identifier;
  missing_passphrase : list keypair_identifier;
  accepted : list keypair_identifier
}.

Record authorization_result := mkAuthorizationResult {
  response_message : string;
  has_errors : bool;
  keypair_statuses : keypair_statuses_t
}.

(** Comparison of [(count, key_algo)] tuples: the first components decide
    unless they are equal.  A [str] is compared by code points, which is the
    byte order of the UTF-8 encoding that a [string] holds. *)
Definition tuple_lt (a b : nat * string) : bool :=
  (a.1 <? b.1)%nat || ((a.1 =? b.1)%nat && String.ltb a.2 b.2).

(** One step of [min]: a later item replaces the best one so far only when
    it is smaller. *)
Definition min_step (best item : nat * string) : nat * string :=
  if tuple_lt item best then item else best.

(** [min(items)]: the first item that no later item is smaller than. *)
Definition py_min (items : list (nat * string)) : option (nat * string) :=
  match items with
  | [] => None
  | x :: xs => Some (fold_left min_step xs x)
  end.

(** The order that [tuple_lt] is the strict part of. *)
Definition tuple_le (a b : nat * string) : Prop :=
  (a.1 < b.1)%nat \/ (a.1 = b.1 /\ String.leb a.2 b.2 = true).

Section Escrow.
Context {CP : CryptoPrimitives}.

(** ** The world and its monad *)

Record World := mkWorld { key_storage : KeyStorage; entropy : Rng }.

(** A computation returns or raises, and leaves the world as it was at that
    point: mutations made before an exception persist. *)
Definition M (A : Type) : Type := World -> result A * World.

Definition ret {A} (a : A) : M A := fun w => (Return a, w).
Definition raise {A} (e : exn) : M A := fun w => (Raise e, w).
Definition lift {A} (r : result A) : M A := fun w => (r, w).

Definition bind {A B} (m : M A) (k : A -> M B) : M B :=
  fun w =>
    match m w with
    | (Return a, w') => k a w'
    | (Raise e, w') => (Raise e, w')
    end.

(** [try: body / except cls: handler / else: orelse]; [handler] and [orelse]
    continue with the rest of the enclosing block. *)
Definition try_except_else {A B} (body : M A) (cls : exn_class)
    (handler : exn -> M B) (orelse : A -> M B) : M B :=
  fun w =>
    match body w with
    | (Return a, w') => orelse a w'
    | (Raise e, w') =>
        if decide (exn_class_of e = cls) then handler e w' else (Raise e, w')
    end.

Definition assert_ (cond : bool) (msg : string) : M unit :=
  if cond then ret tt else raise (Exn AssertionError msg).

Notation "x <- m ;; k" := (bind m (fun x => k))
  (at level 100, m at next level, right associativity).
Notation "m >> k" := (bind m (fun _ => k))
  (at level 100, right associativity).

(** Key storage methods, on the storage of the world. *)
Definition get_public_key (uid : UUID) (algo : string) : M bytes :=
  fun w => (ks_get_public_key (key_storage w) uid algo, w).

Definition get_private_key (uid : UUID) (algo : string) : M bytes :=
  fun w => (ks_get_private_key (key_storage w) uid algo, w).

Definition set_keys (uid : UUID) (algo : string) (pub priv : bytes) : M unit :=
  fun w =>
    let '(r, ks) := ks_set_keys (key_storage w) uid algo pub priv in
    (r, mkWorld ks (entropy w)).

Definition attach_free_keypair_to_uuid (uid : UUID) (algo : string) : M unit :=
  fun w =>
    let '(r, ks) := ks_attach_free_keypair_to_uuid (key_storage w) uid algo in
    (r, mkWorld ks (entropy w)).

Definition get_free_keypairs_count (algo : string) : M nat :=
  fun w => (Return (ks_get_free_keypairs_count (key_storage w) algo), w).

Definition add_free_keypair (algo : string) (pub priv : bytes) : M unit :=
  fun w =>
    (Return tt,
     mkWorld (ks_add_free_keypair (key_storage w) algo pub priv) (entropy w)).

(** Randomised primitives, on the entropy of the world. *)
Definition do_generate_keypair (algo : string) (passphrase : option string)
  : M keypair :=
  fun w =>
    let '(r, g) := generate_keypair algo passphrase (entropy w) in
    (r, mkWorld (key_storage w) g).

Definition do_generate_uuid0 : M UUID :=
  fun w =>
    let '(u, g) := generate_uuid0 (entropy w) in
    (Return u, mkWorld (key_storage w) g).

Definition do_sign_message (message : bytes) (algo : string) (key : Key)
  : M Signature :=
  fun w =>
    let '(r, g) := sign_message message algo key (entropy w) in
    (r, mkWorld (key_storage w) g).

(** ** [generate_keypair_for_storage] *)

(** A [UUID] object is always truthy, so [keychain_uid or generate_uuid0()]
    draws a uid exactly when the argument is [None]. *)
Definition generate_keypair_for_storage (key_algo : string)
    (keychain_uid : option UUID) (passphrase : option string) : M keypair :=
  uid <- match keychain_uid with
         | Some u => ret u
         | None => do_generate_uuid0
         end ;;
  kp <- do_generate_keypair key_algo passphrase ;;
  set_keys uid key_algo (public_key kp) (private_key kp) >>
  ret kp.

(** ** class [EscrowApi] *)

(** The methods that subclasses override. *)
Record EscrowApiClass := mkEscrowApiClass {
  _ensure_keypair_exists : UUID -> string -> M unit;
  _check_keypair_authorization : UUID -> string -> M unit
}.

Definition EscrowApi_ensure_keypair_exists (uid : UUID) (algo : string)
  : M unit :=
  try_except_else (get_public_key uid algo) KeyDoesNotExist
    (fun _ =>
       try_except_else (attach_free_keypair_to_uuid uid algo) KeyDoesNotExist
         (fun _ => generate_keypair_for_storage algo (Some uid) None >> ret tt)
         (fun _ => ret tt))
    (fun _ => ret tt).

Definition EscrowApi_check_keypair_authorization (uid : UUID) (algo : string)
  : M unit :=
  ret tt.

Definition EscrowApi : EscrowApiClass :=
  mkEscrowApiClass EscrowApi_ensure_keypair_exists
                   EscrowApi_check_keypair_authorization.

Definition fetch_public_key (self : EscrowApiClass) (uid : UUID)
    (algo : string) (must_exist : bool) : M bytes :=
  (if negb must_exist then _ensure_keypair_exists self uid algo else ret tt) >>
  get_public_key uid algo.

Definition get_message_signature (self : EscrowApiClass) (uid : UUID)
    (message : bytes) (signature_algo : string) : M Signature :=
  if (MAX_PAYLOAD_LENGTH_FOR_SIGNATURE <? length message)%nat then
    raise (Exn ValueError "Message too big for signing, only a hash should be sent")
  else
    _ensure_keypair_exists self uid signature_algo >>
    private_key_pem <- get_private_key uid signature_algo ;;
    key <- lift (load_asymmetric_key_from_pem_bytestring
                   private_key_pem signature_algo None) ;;
    do_sign_message message signature_algo key.

(** The [for] loop of [_decrypt_private_key_pem_with_passphrases]:
    [Return (Some key)] is the [return] inside the loop, [Return None] is
    the loop running to its end. *)
Fixpoint try_passphrases (private_key_pem : bytes) (algo : string)
    (candidates : list (option string)) : result (option Key) :=
  match candidates with
  | [] => Return None
  | passphrase :: rest =>
      match load_asymmetric_key_from_pem_bytestring
              private_key_pem algo passphrase with
      | Return key_obj => Return (Some key_obj)
      | Raise e =>
          if decide (exn_class_of e = KeyLoadingError)
          then try_passphrases private_key_pem algo rest
          else Raise e
      end
  end.

Definition could_not_decrypt_message (algo : string) (n : nat) : string :=
  "Could not decrypt private key of type " ++ algo
    ++ " (passphrases provided: " ++ str_of_nat n ++ ")".

Definition _decrypt_private_key_pem_with_passphrases (private_key_pem : bytes)
    (algo : string) (passphrases : py_passphrases) : result Key :=
  match list_None_plus passphrases with
  | Raise e => Raise e
  | Return candidates =>
      match try_passphrases private_key_pem algo candidates with
      | Raise e => Raise e
      | Return (Some key_obj) => Return key_obj
      | Return None =>
          match py_len passphrases with
          | Raise e => Raise e
          | Return n =>
              Raise (Exn DecryptionError (could_not_decrypt_message algo n))
          end
      end
  end.

(** [repr(passphrases)], exact for strings made of printable characters
    other than the quote and the backslash. *)
Definition py_repr_str (s : string) : string := "'" ++ s ++ "'".

Definition py_repr (p : py_passphrases) : string :=
  match p with
  | PyNone => "None"
  | PyList l => "[" ++ String.concat ", " (map py_repr_str l) ++ "]"
  | PyTuple [x] => "(" ++ py_repr_str x ++ ",)"
  | PyTuple l => "(" ++ String.concat ", " (map py_repr_str l) ++ ")"
  | PyStr s => py_repr_str s
  end.

Definition append_missing_private_key (st : keypair_statuses_t)
    (x : keypair_identifier) : keypair_statuses_t :=
  mkStatuses (missing_private_key st ++ [x]) (authorization_missing st)
             (missing_passphrase st) (accepted st).

Definition append_authorization_missing (st : keypair_statuses_t)
    (x : keypair_identifier) : keypair_statuses_t :=
  mkStatuses (missing_private_key st) (authorization_missing st ++ [x])
             (missing_passphrase st) (accepted st).

Definition append_missing_passphrase (st : keypair_statuses_t)
    (x : keypair_identifier) : keypair_statuses_t :=
  mkStatuses (missing_private_key st) (authorization_missing st)
             (missing_passphrase st ++ [x]) (accepted st).

Definition append_accepted (st : keypair_statuses_t)
    (x : keypair_identifier) : keypair_statuses_t :=
  mkStatuses (missing_private_key st) (authorization_missing st)
             (missing_passphrase st) (accepted st ++ [x]).

(** One iteration of the loop of [request_decryption_authorization] on the
    four lists [st]; each [continue] returns the lists for the next
    iteration.  The message of [assert res, repr(res)] is not modelled. *)
Definition check_one_keypair (self : EscrowApiClass)
    (passphrases : py_passphrases) (st : keypair_statuses_t)
    (keypair_identifier : keypair_identifier) : M keypair_statuses_t :=
  let uid := keychain_uid keypair_identifier in
  let algo := key_algo keypair_identifier in
  try_except_else (_check_keypair_authorization self uid algo)
    AuthorizationError
    (fun _ => ret (append_authorization_missing st keypair_identifier))
    (fun _ =>
       try_except_else (get_private_key uid algo) KeyDoesNotExist
         (fun _ => ret (append_missing_private_key st keypair_identifier))
         (fun private_key_pem =>
            try_except_else
              (res <- lift (_decrypt_private_key_pem_with_passphrases
                              private_key_pem algo passphrases) ;;
               assert_ (key_truthy res) EmptyString)
              DecryptionError
              (fun _ => ret (append_missing_passphrase st keypair_identifier))
              (fun _ => ret (append_accepted st keypair_identifier)))).

Fixpoint check_keypairs (self : EscrowApiClass) (passphrases : py_passphrases)
    (keypair_identifiers : list keypair_identifier) (st : keypair_statuses_t)
  : M keypair_statuses_t :=
  match keypair_identifiers with
  | [] => ret st
  | keypair_identifier :: rest =>
      st' <- check_one_keypair self passphrases st keypair_identifier ;;
      check_keypairs self passphrases rest st'
  end.

(** [sum(len(x) for x in keypair_statuses.values())]. *)
Definition statuses_total (st : keypair_statuses_t) : nat :=
  length (missing_private_key st) + length (authorization_missing st)
  + length (missing_passphrase st) + length (accepted st).

(** The message of the last assertion, [locals()], is not modelled. *)
Definition request_decryption_authorization (self : EscrowApiClass)
    (keypair_identifiers : list keypair_identifier) (request_message : string)
    (passphrases : py_passphrases) : M authorization_result :=
  let passphrases := or_empty_list passphrases in
  assert_ (isinstance_tuple_or_list passphrases) (py_repr passphrases) >>
  match keypair_identifiers with
  | [] =>
      raise (Exn ValueError
        "Keypair identifiers must not be empty, when requesting decryption authorization")
  | _ :: _ =>
      st <- check_keypairs self passphrases keypair_identifiers
              (mkStatuses [] [] [] []) ;;
      let has_errors :=
        (length (accepted st) <? length keypair_identifiers)%nat in
      assert_ (statuses_total st =? length keypair_identifiers)%nat
              EmptyString >>
      ret (mkAuthorizationResult
             (if has_errors then "Decryption request denied"
              else "Decryption request accepted")
             has_errors st)
  end.

Definition decrypt_with_private_key (self : EscrowApiClass) (uid : UUID)
    (encryption_algo : string) (cipherdict : Cipherdict)
    (passphrases : py_passphrases) : M bytes :=
  assert_ (String.eqb (upper encryption_algo) "RSA_OAEP") EmptyString >>
  let passphrases := or_empty_list passphrases in
  assert_ (isinstance_tuple_or_list passphrases) (py_repr passphrases) >>
  private_key_pem <- get_private_key uid encryption_algo ;;
  private_key <- lift (_decrypt_private_key_pem_with_passphrases
                         private_key_pem encryption_algo passphrases) ;;
  lift (_decrypt_via_rsa_oaep cipherdict private_key).

(** ** class [ReadonlyEscrowApi] *)

Definition ReadonlyEscrowApi_ensure_keypair_exists (uid : UUID)
    (algo : string) : M unit :=
  try_except_else (get_public_key uid algo) KeyDoesNotExist
    (fun _ =>
       raise (Exn KeyDoesNotExist
                ("Keypair " ++ str_of_uuid uid ++ "/" ++ algo
                 ++ " not found in escrow api")))
    (fun _ => ret tt).

Definition ReadonlyEscrowApi : EscrowApiClass :=
  mkEscrowApiClass ReadonlyEscrowApi_ensure_keypair_exists
                   EscrowApi_check_keypair_authorization.

(** A subclass with a permission check, as the docstring of [EscrowApi] asks
    of subclasses: [_check_keypair_authorization] raises [AuthorizationError]
    for the keypairs that [denied] gives a message for. *)
Definition with_authorization_policy (denied : UUID -> string -> option string)
    (base : EscrowApiClass) : EscrowApiClass :=
  mkEscrowApiClass (_ensure_keypair_exists base)
    (fun uid algo =>
       match denied uid algo with
       | Some msg => raise (Exn AuthorizationError msg)
       | None => ret tt
       end).

(** ** The free keys generator *)

(** The list comprehension over [key_algos]. *)
Fixpoint free_keys_counts_of (key_algos : list string)
  : M (list (nat * string)) :=
  match key_algos with
  | [] => ret []
  | algo :: rest =>
      count <- get_free_keypairs_count algo ;;
      counts <- free_keys_counts_of rest ;;
      ret ((count, algo) :: counts)
  end.

(** [key_generation_func] is called with [key_algo] and [serialize=True];
    the assertion fails on the empty list only, whose [repr] is its
    message. *)
Definition generate_free_keypair_for_least_provisioned_key_algo
    (max_free_keys_per_algo : Z) (key_generation_func : string -> M keypair)
    (key_algos : list string) : M bool :=
  assert_ (negb (Nat.eqb (length key_algos) 0)) "[]" >>
  free_keys_counts <- free_keys_counts_of key_algos ;;
  match py_min free_keys_counts with
  | None => raise (Exn ValueError "min() arg is an empty sequence")
  | Some (count, algo) =>
      if (max_free_keys_per_algo <=? Z.of_nat count)%Z then ret false
      else
        kp <- key_generation_func algo ;;
        add_free_keypair algo (public_key kp) (private_key kp) >>
        ret true
  end.

(** The default [key_generation_func]: [generate_keypair] without passphrase. *)
Definition default_key_generation_func (algo : string) : M keypair :=
  do_generate_keypair algo None.

End Escrow.

Notation "x <- m ;; k" := (bind m (fun x => k))
  (at level 100, m at next level, right associativity).
Notation "m >> k" := (bind m (fun _ => k))
  (at level 100, right associativity).

(** ** The classification of a keypair identifier, as the specification
    words it *)

Inductive keypair_status :=
| StatusAuthorizationMissing
| StatusMissingPrivateKey
| StatusMissingPassphrase
| StatusAccepted.

Global Instance keypair_status_eq_dec : EqDecision keypair_status.
Proof. solve_decision. Defined.

Section Classification.
Context {CP : CryptoPrimitives}.

(** Does this candidate passphrase load the private key? *)
Definition loads (pem : bytes) (algo : string) (candidate : option string)
  : bool :=
  is_return (load_asymmetric_key_from_pem_bytestring pem algo candidate).

(** The status the specification gives an identifier: authorization is
    looked at first, then the presence of the private key, then whether a
    candidate passphrase ([None] or a supplied one) loads it. *)
Definition status_of (denied : UUID -> string -> option string)
    (ks : KeyStorage) (supplied : list string) (x : keypair_identifier)
  : keypair_status :=
  match denied (keychain_uid x) (key_algo x) with
  | Some _ => StatusAuthorizationMissing
  | None =>
      match cached_keypairs ks !! (keychain_uid x, key_algo x) with
      | None => StatusMissingPrivateKey
      | Some kp =>
          if existsb (loads (private_key kp) (key_algo x))
                     (None :: map Some supplied)
          then StatusAccepted
          else StatusMissingPassphrase
      end
  end.

Definition with_status (denied : UUID -> string -> option string)
    (ks : KeyStorage) (supplied : list string) (s : keypair_status)
    (ids : list keypair_identifier) : list keypair_identifier :=
  List.filter (fun x => bool_decide (status_of denied ks supplied x = s)) ids.

(** The candidate fails to load the key, with [KeyLoadingError]. *)
Definition fails_to_load (pem : bytes) (algo : string)
    (candidate : option string) : Prop :=
  raises (load_asymmetric_key_from_pem_bytestring pem algo candidate)
         KeyLoadingError.

(** The world after a free keypair [kp] was bound to [(uid, algo)], [pool]
    being what is left of the free keypairs of [algo]. *)
Definition world_after_attach (w : World) (uid : UUID) (algo : string)
    (kp : keypair) (pool : list keypair) : World :=
  mkWorld
    (mkKeyStorage (<[(uid, algo) := kp]> (cached_keypairs (key_storage w)))
                  (<[algo := pool]> (free_keypairs (key_storage w))))
    (entropy w).

(** The world after [kp] was generated, leaving entropy [g], and stored. *)
Definition world_after_generate (w : World) (uid : UUID) (algo : string)
    (kp : keypair) (g : Rng) : World :=
  mkWorld
    (mkKeyStorage (<[(uid, algo) := kp]> (cached_keypairs (key_storage w)))
                  (free_keypairs (key_storage w)))
    g.

(** What one iteration of the loop does with an identifier under a
    permission policy [denied], read off the code: the list it is appended
    to, or the exception that leaves the loop. *)
Definition outcome_of (denied : UUID -> string -> option string)
    (ks : KeyStorage) (passphrases : py_passphrases) (x : keypair_identifier)
  : result keypair_status :=
  match denied (keychain_uid x) (key_algo x) with
  | Some _ => Return StatusAuthorizationMissing
  | None =>
      match cached_keypairs ks !! (keychain_uid x, key_algo x) with
      | None => Return StatusMissingPrivateKey
      | Some kp =>
          match _decrypt_private_key_pem_with_passphrases
                  (private_key kp) (key_algo x) passphrases with
          | Return k =>
              if key_truthy k then Return StatusAccepted
              else Raise (Exn AssertionError EmptyString)
          | Raise e =>
              if decide (exn_class_of e = DecryptionError)
              then Return StatusMissingPassphrase
              else Raise e
          end
      end
  end.

Definition has_outcome (denied : UUID -> string -> option string)
    (ks : KeyStorage) (passphrases : py_passphrases) (s : keypair_status)
    (x : keypair_identifier) : bool :=
  match outcome_of denied ks passphrases x with
  | Return s' => bool_decide (s' = s)
  | Raise _ => false
  end.

(** The first exception that leaves the loop, if any. *)
Fixpoint first_error (denied : UUID -> string -> option string)
    (ks : KeyStorage) (passphrases : py_passphrases)
    (ids : list keypair_identifier) : option exn :=
  match ids with
  | [] => None
  | x :: rest =>
      match outcome_of denied ks passphrases x with
      | Return _ => first_error denied ks passphrases rest
      | Raise e => Some e
      end
  end.

Definition append_status (s : keypair_status) (st : keypair_statuses_t)
    (x : keypair_identifier) : keypair_statuses_t :=
  match s with
  | StatusAuthorizationMissing => append_authorization_missing st x
  | StatusMissingPrivateKey => append_missing_private_key st x
  | StatusMissingPassphrase => append_missing_passphrase st x
  | StatusAccepted => append_accepted st x
  end.

(** The four lists [st] after the loop ran over [ids] without exception. *)
Definition extend_statuses (denied : UUID -> string -> option string)
    (ks : KeyStorage) (passphrases : py_passphrases) (st : keypair_statuses_t)
    (ids : list keypair_identifier) : keypair_statuses_t :=
  let part s := List.filter (has_outcome denied ks passphrases s) ids in
  mkStatuses (missing_private_key st ++ part StatusMissingPrivateKey)
             (authorization_missing st ++ part StatusAuthorizationMissing)
             (missing_passphrase st ++ part StatusMissingPassphrase)
             (accepted st ++ part StatusAccepted).

(** The classification in terms of what the calls of the loop do: the
    authorization check raises [AuthorizationError]; or it passes and the
    private key lookup raises [KeyDoesNotExist]; or the key is found and
    every candidate passphrase fails to load it; or one of them loads it. *)
Definition classified_as (self : EscrowApiClass) (w : World)
    (supplied : list string) (x : keypair_identifier) (s : keypair_status)
  : Prop :=
  let uid := keychain_uid x in
  let algo := key_algo x in
  let authorized :=
    fst (_check_keypair_authorization self uid algo w) = Return tt in
  let candidates := None :: map Some supplied in
  match s with
  | StatusAuthorizationMissing =>
      raises (fst (_check_keypair_authorization self uid algo w))
             AuthorizationError
  | StatusMissingPrivateKey =>
      authorized /\ raises (fst (get_private_key uid algo w)) KeyDoesNotExist
  | StatusMissingPassphrase =>
      authorized /\
      exists pem, fst (get_private_key uid algo w) = Return pem
                  /\ Forall (fails_to_load pem algo) candidates
  | StatusAccepted =>
      authorized /\
      exists pem, fst (get_private_key uid algo w) = Return pem
                  /\ Exists (fun c => loads pem algo c = true) candidates
  end.

(** In how many of the four lists [x] occurs. *)
Definition lists_containing (x : keypair_identifier) (st : keypair_statuses_t)
  : nat :=
  let occurs l :=
    if in_dec keypair_identifier_eq_dec x l then 1%nat else 0%nat in
  (occurs (missing_private_key st) + occurs (authorization_missing st)
   + occurs (missing_passphrase st) + occurs (accepted st))%nat.

(** Loading this key with this candidate passphrase either returns a truthy
    key object or fails with [KeyLoadingError]. *)
Definition loads_or_fails (pem : bytes) (algo : string)
    (candidate : option string) : Prop :=
  match load_asymmetric_key_from_pem_bytestring pem algo candidate with
  | Return k => key_truthy k = true
  | Raise e => exn_class_of e = KeyLoadingError
  end.

(** The key loading of one request behaves so: for the identifiers of the
    request that the policy does not deny and that have a stored keypair,
    on their private key, with [None] and with each supplied passphrase.
    Nothing is asked of the loader on other keys, algos or passphrases. *)
Definition loading_contract_on (denied : UUID -> string -> option string)
    (ks : KeyStorage) (ids : list keypair_identifier) (supplied : list string)
  : Prop :=
  forall x kp candidate,
    In x ids ->
    denied (keychain_uid x) (key_algo x) = None ->
    cached_keypairs ks !! (keychain_uid x, key_algo x) = Some kp ->
    In candidate (None :: map Some supplied) ->
    loads_or_fails (private_key kp) (key_algo x) candidate.

End Classification.

(** ** The periodic task of [get_free_keys_generator_worker] *)

Section Worker.
Context {CP : CryptoPrimitives}.
Context {Duration : Type}.

(** [free_keypair_generator_task], the function that the periodic task
    handler calls.  [time.sleep] is recorded: the state of the task is the
    world and the durations slept so far, oldest first.  The generation
    function and the algos are what [extra_generation_kwargs] carries. *)
Definition free_keypair_generator_task (max_free_keys_per_algo : Z)
    (sleep_on_overflow_s : Duration) (key_generation_func : string -> M keypair)
    (key_algos : list string) (state : World * list Duration)
  : result bool * (World * list Duration) :=
  match generate_free_keypair_for_least_provisioned_key_algo
          max_free_keys_per_algo key_generation_func key_algos state.1 with
  | (Return has_generated, w') =>
      (Return has_generated,
       (w', if has_generated then state.2
            else (state.2 ++ [sleep_on_overflow_s])%list))
  | (Raise e, w') => (Raise e, (w', state.2))
  end.

(** [n] calls of the task in a row, with the value each one returned; an
    exception ends the run. *)
Fixpoint run_task_times (n : nat) (max_free_keys_per_algo : Z)
    (sleep_on_overflow_s : Duration) (key_generation_func : string -> M keypair)
    (key_algos : list string) (state : World * list Duration)
  : result (list bool) * (World * list Duration) :=
  match n with
  | O => (Return [], state)
  | S n' =>
      match free_keypair_generator_task max_free_keys_per_algo
              sleep_on_overflow_s key_generation_func key_algos state with
      | (Raise e, state') => (Raise e, state')
      | (Return b, state') =>
          match run_task_times n' max_free_keys_per_algo sleep_on_overflow_s
                  key_generation_func key_algos state' with
          | (Raise e, state'') => (Raise e, state'')
          | (Return bs, state'') => (Return (b :: bs), state'')
          end
      end
  end.

(** The free keypair count of an algo in a world. *)
Definition count_in (w : World) (algo : string) : nat :=
  ks_get_free_keypairs_count (key_storage w) algo.

(** Key generation without passphrase always returns a keypair. *)
Definition generation_never_fails : Prop :=
  forall algo g, exists kp g',
    generate_keypair algo None g = (Return kp, g').

End Worker.

(** How many free keypairs the pools of [key_algos] lack to hold
    [max_free_keys_per_algo] each. *)
Definition deficit (max_free_keys_per_algo : Z) (ks : KeyStorage)
    (key_algos : list string) : nat :=
  list_sum (map (fun a => Z.to_nat (max_free_keys_per_algo
                                    - Z.of_nat (ks_get_free_keypairs_count ks a)))
                key_algos).

(** The free count of an algo once its pool is topped up to the maximum. *)
Definition topped_up (max_free_keys_per_algo : Z) (ks : KeyStorage)
    (a : string) : nat :=
  Nat.max (ks_get_free_keypairs_count ks a) (Z.to_nat max_free_keys_per_algo).

(** ** A small instance of the primitives, to run the definitions

    A private key PEM starting with byte [00] is unprotected; one starting
    with byte [01] is protected by the passphrase [secret]; anything else
    does not decode.  The key object is the number of bytes after the tag. *)
Module Toy.

Definition load (pem : bytes) (algo : string) (passphrase : option string)
  : result nat :=
  match pem with
  | [] => Raise (Exn KeyLoadingError "not a key")
  | tag :: rest =>
      if Byte.eqb tag x00 then Return (length rest)
      else if Byte.eqb tag x01 then
        match passphrase with
        | Some p =>
            if String.eqb p "secret" then Return (length rest)
            else Raise (Exn KeyLoadingError "wrong passphrase")
        | None => Raise (Exn KeyLoadingError "passphrase needed")
        end
      else Raise (Exn KeyLoadingError "not a key")
  end.

Definition generate (algo : string) (passphrase : option string) (g : nat)
  : result keypair * nat :=
  (Return (Keypair (repeat x2a g)
             (match passphrase with Some _ => x01 | None => x00 end
              :: repeat x2b g)), S g).

#[local] Instance primitives : CryptoPrimitives := {|
  Rng := nat;
  Key := nat;
  Signature := bytes * nat;
  Cipherdict := bytes;
  generate_keypair := generate;
  generate_uuid0 := fun g => (N.of_nat g, S g);
  load_asymmetric_key_from_pem_bytestring := load;
  sign_message := fun message algo key g => (Return (message, key), S g);
  _decrypt_via_rsa_oaep := fun cipherdict key => Return cipherdict;
  key_truthy := fun _ => true
|}.

Definition empty_storage : KeyStorage := mkKeyStorage ∅ ∅.

Definition world0 : World := mkWorld empty_storage 7%nat.

Definition plain_pair : keypair := Keypair [x10] [x00; x11; x12].
Definition locked_pair : keypair := Keypair [x20] [x01; x21].

(** A storage with an unprotected RSA_OAEP key under uid 1, a protected one
    under uid 2, and one free DSA_DSS keypair. *)
Definition storage1 : KeyStorage :=
  mkKeyStorage
    (<[(1%N, "RSA_OAEP") := plain_pair]>
       (<[(2%N, "RSA_OAEP") := locked_pair]> ∅))
    (<["DSA_DSS" := [plain_pair]]> ∅).

Definition world1 : World := mkWorld storage1 7%nat.

Definition id1 := KeypairIdentifier 1%N "RSA_OAEP".
Definition id2 := KeypairIdentifier 2%N "RSA_OAEP".
Definition id3 := KeypairIdentifier 3%N "RSA_OAEP".
Definition id4 := KeypairIdentifier 4%N "RSA_OAEP".

(** A policy that denies decryption with the keys of uid 4. *)
Definition deny4 (uid : UUID) (algo : string) : option string :=
  if N.eqb uid 4 then Some "not authorized yet" else None.

(** The world after one ECC_DSS keypair was generated from entropy 7 and
    added to the free pool. *)
Definition world2 : World :=
  mkWorld (ks_add_free_keypair storage1 "ECC_DSS"
             (repeat x2a 7) (x00 :: repeat x2b 7)) 8%nat.

End Toy.

Example toy_decrypt_plain :
  fst (decrypt_with_private_key (CP := Toy.primitives) EscrowApi 1%N "RSA_OAEP"
         [x61] (PyList ["wrong"]) Toy.world1) = Return [x61].
Proof. vm_compute. reflexivity. Qed.

Example toy_decrypt_locked :
  fst (decrypt_with_private_key (CP := Toy.primitives) EscrowApi 2%N "RSA_OAEP"
         [x61] (PyList ["wrong"]) Toy.world1)
  = Raise (Exn DecryptionError
      "Could not decrypt private key of type RSA_OAEP (passphrases provided: 1)").
Proof. vm_compute. reflexivity. Qed.

Example toy_request :
  fst (request_decryption_authorization (CP := Toy.primitives) EscrowApi
         [Toy.id1; Toy.id2; Toy.id3] "please" PyNone Toy.world1)
  = Return (mkAuthorizationResult "Decryption request denied" true
              (mkStatuses [Toy.id3] [] [Toy.id2] [Toy.id1])).
Proof. vm_compute. reflexivity. Qed.

Example toy_uuid :
  str_of_uuid 1%N = "00000000-0000-0000-0000-000000000001".
Proof. vm_compute. reflexivity. Qed.

Example toy_fetch :
  fst (fetch_public_key (CP := Toy.primitives) EscrowApi 9%N "DSA_DSS" false
         Toy.world1) = Return [x10].
Proof. vm_compute. reflexivity. Qed.

Example toy_min :
  py_min [(2, "RSA_PSS"); (1, "RSA_OAEP"); (1, "DSA_DSS"); (1, "ECC_DSS")]%nat
  = Some (1%nat, "DSA_DSS").
Proof. vm_compute. reflexivity. Qed.

(** * Properties *)

Section EscrowProofs.
Context {CP : CryptoPrimitives}.

Implicit Types (w : World) (uid : UUID) (algo : string) (kp : keypair).

(** ** Strings and Python values *)

Lemma prefix_append (s t : string) : String.prefix s (s ++ t) = true.
Proof.
  induction s as [|a s IH]; [by destruct t|].
  change (String a s ++ t) with (String a (s ++ t)). simpl.
  destruct (ascii_dec a a) as [_|Hne]; [exact IH|by destruct Hne].
Qed.

Lemma or_empty_list_PyList (l : list string) :
  or_empty_list (PyList l) = PyList l.
Proof. by destruct l. Qed.

Lemma or_empty_list_PyNone : or_empty_list PyNone = PyList [].
Proof. reflexivity. Qed.

(** ** The passphrase loop *)

Lemma try_passphrases_first pem algo pre c post (k : Key) :
  Forall (fails_to_load pem algo) pre ->
  load_asymmetric_key_from_pem_bytestring pem algo c = Return k ->
  try_passphrases pem algo (pre ++ c :: post)%list = Return (Some k).
Proof.
  intros Hpre Hc. induction Hpre as [|p pre [msg Hp] _ IH]; simpl.
  - by rewrite Hc.
  - rewrite Hp. simpl. exact IH.
Qed.

Lemma try_passphrases_exhausted pem algo candidates :
  Forall (fails_to_load pem algo) candidates ->
  try_passphrases pem algo candidates = Return None.
Proof.
  induction 1 as [|p l [msg Hp] _ IH]; simpl; [done|].
  rewrite Hp. simpl. exact IH.
Qed.

Lemma decrypt_private_key_pem_first pem algo supplied pre c post (k : Key) :
  None :: map Some supplied = (pre ++ c :: post)%list ->
  Forall (fails_to_load pem algo) pre ->
  load_asymmetric_key_from_pem_bytestring pem algo c = Return k ->
  _decrypt_private_key_pem_with_passphrases pem algo (PyList supplied)
  = Return k.
Proof.
  intros Heq Hpre Hc. unfold _decrypt_private_key_pem_with_passphrases.
  simpl list_None_plus. cbv iota. rewrite Heq.
  by rewrite (try_passphrases_first _ _ _ _ _ _ Hpre Hc).
Qed.

Lemma decrypt_private_key_pem_exhausted pem algo supplied :
  Forall (fails_to_load pem algo) (None :: map Some supplied) ->
  _decrypt_private_key_pem_with_passphrases pem algo (PyList supplied)
  = Raise (Exn DecryptionError
             (could_not_decrypt_message algo (length supplied))).
Proof.
  intros Hall. unfold _decrypt_private_key_pem_with_passphrases.
  simpl list_None_plus. cbv iota.
  by rewrite (try_passphrases_exhausted _ _ _ Hall).
Qed.

Lemma could_not_decrypt_message_prefix algo n :
  String.prefix "Could not decrypt private key"
                (could_not_decrypt_message algo n) = true.
Proof.
  unfold could_not_decrypt_message.
  change ("Could not decrypt private key of type " ++ algo
          ++ " (passphrases provided: " ++ str_of_nat n ++ ")")
    with ("Could not decrypt private key"
          ++ (" of type " ++ algo ++ " (passphrases provided: "
              ++ str_of_nat n ++ ")")).
  apply prefix_append.
Qed.

(** ** Key storage reads through the world *)

Lemma get_private_key_stored w uid algo kp :
  cached_keypairs (key_storage w) !! (uid, algo) = Some kp ->
  get_private_key uid algo w = (Return (private_key kp), w).
Proof. intros H. unfold get_private_key, ks_get_private_key. by rewrite H. Qed.

Lemma get_public_key_stored w uid algo kp :
  cached_keypairs (key_storage w) !! (uid, algo) = Some kp ->
  get_public_key uid algo w = (Return (public_key kp), w).
Proof. intros H. unfold get_public_key, ks_get_public_key. by rewrite H. Qed.

Lemma get_public_key_absent w uid algo :
  cached_keypairs (key_storage w) !! (uid, algo) = None ->
  get_public_key uid algo w
  = (Raise (Exn KeyDoesNotExist "public key not found in key storage"), w).
Proof. intros H. unfold get_public_key, ks_get_public_key. by rewrite H. Qed.

Lemma get_private_key_absent w uid algo :
  cached_keypairs (key_storage w) !! (uid, algo) = None ->
  get_private_key uid algo w
  = (Raise (Exn KeyDoesNotExist "private key not found in key storage"), w).
Proof. intros H. unfold get_private_key, ks_get_private_key. by rewrite H. Qed.

(** ** [decrypt_with_private_key] *)

Lemma decrypt_with_private_key_stored self w uid cipherdict kp supplied :
  cached_keypairs (key_storage w) !! (uid, "RSA_OAEP") = Some kp ->
  decrypt_with_private_key self uid "RSA_OAEP" cipherdict (PyList supplied) w
  = match _decrypt_private_key_pem_with_passphrases
            (private_key kp) "RSA_OAEP" (PyList supplied) with
    | Return k => (_decrypt_via_rsa_oaep cipherdict k, w)
    | Raise e => (Raise e, w)
    end.
Proof.
  intros Hkp. unfold decrypt_with_private_key.
  rewrite or_empty_list_PyList. unfold bind at 1. simpl.
  unfold bind at 1. simpl. unfold bind at 1.
  rewrite (get_private_key_stored _ _ _ _ Hkp).
  unfold bind, lift.
  by destruct (_decrypt_private_key_pem_with_passphrases _ _ _).
Qed.

(** C1. With the private key of [(uid, RSA_OAEP)] stored, the candidates are
    [None] and then the supplied passphrases in their order: the call returns
    what RSA-OAEP decryption gives with the key loaded by the first candidate
    that loads it, all earlier ones having failed with [KeyLoadingError]; it
    raises [DecryptionError], with a message starting "Could not decrypt
    private key", when every candidate fails.  Hence an unprotected key
    (loaded by [None]) is used whatever the supplied passphrases are, and
    omitting the passphrases is supplying none.  The world is never changed. *)
Theorem decrypt_with_private_key_candidates_in_order
    (self : EscrowApiClass) w uid (cipherdict : Cipherdict) kp
    (supplied : list string) :
  cached_keypairs (key_storage w) !! (uid, "RSA_OAEP") = Some kp ->
  let pem := private_key kp in
  let run p := decrypt_with_private_key self uid "RSA_OAEP" cipherdict p w in
  (forall pre c post k,
      None :: map Some supplied = (pre ++ c :: post)%list ->
      Forall (fails_to_load pem "RSA_OAEP") pre ->
      load_asymmetric_key_from_pem_bytestring pem "RSA_OAEP" c = Return k ->
      run (PyList supplied) = (_decrypt_via_rsa_oaep cipherdict k, w))
  /\ (Forall (fails_to_load pem "RSA_OAEP") (None :: map Some supplied) ->
      exists msg,
        run (PyList supplied) = (Raise (Exn DecryptionError msg), w)
        /\ String.prefix "Could not decrypt private key" msg = true)
  /\ (forall k,
      load_asymmetric_key_from_pem_bytestring pem "RSA_OAEP" None = Return k ->
      run (PyList supplied) = (_decrypt_via_rsa_oaep cipherdict k, w))
  /\ run PyNone = run (PyList []).
Proof.
  intros Hkp pem run. subst run. cbv beta.
  rewrite (decrypt_with_private_key_stored _ _ _ _ _ _ Hkp). fold pem.
  repeat split.
  - intros pre c post k Heq Hpre Hc.
    by rewrite (decrypt_private_key_pem_first _ _ _ _ _ _ _ Heq Hpre Hc).
  - intros Hall. rewrite (decrypt_private_key_pem_exhausted _ _ _ Hall).
    eexists. split; [reflexivity|]. apply could_not_decrypt_message_prefix.
  - intros k Hk.
    by rewrite (decrypt_private_key_pem_first _ _ supplied [] None
                  (map Some supplied) k eq_refl (List.Forall_nil _) Hk).
Qed.

(** ** [_ensure_keypair_exists] of [EscrowApi] *)

Lemma ensure_keypair_exists_present w uid algo kp :
  cached_keypairs (key_storage w) !! (uid, algo) = Some kp ->
  EscrowApi_ensure_keypair_exists uid algo w = (Return tt, w).
Proof.
  intros H. unfold EscrowApi_ensure_keypair_exists, try_except_else.
  by rewrite (get_public_key_stored _ _ _ _ H).
Qed.

Lemma ensure_keypair_exists_attaches w uid algo kp pool :
  cached_keypairs (key_storage w) !! (uid, algo) = None ->
  default [] (free_keypairs (key_storage w) !! algo) = kp :: pool ->
  EscrowApi_ensure_keypair_exists uid algo w
  = (Return tt, world_after_attach w uid algo kp pool).
Proof.
  intros Habs Hpool. unfold EscrowApi_ensure_keypair_exists.
  unfold try_except_else at 1. rewrite (get_public_key_absent _ _ _ Habs).
  destruct w as [ks g0]. simpl in *.
  unfold try_except_else, attach_free_keypair_to_uuid,
    ks_attach_free_keypair_to_uuid. simpl.
  by rewrite Habs, Hpool.
Qed.

Lemma ensure_keypair_exists_generates w uid algo kp g :
  cached_keypairs (key_storage w) !! (uid, algo) = None ->
  default [] (free_keypairs (key_storage w) !! algo) = [] ->
  generate_keypair algo None (entropy w) = (Return kp, g) ->
  EscrowApi_ensure_keypair_exists uid algo w
  = (Return tt, world_after_generate w uid algo kp g).
Proof.
  intros Habs Hpool Hgen. unfold EscrowApi_ensure_keypair_exists.
  unfold try_except_else at 1. rewrite (get_public_key_absent _ _ _ Habs).
  destruct w as [ks g0]. simpl in *.
  unfold try_except_else, attach_free_keypair_to_uuid,
    ks_attach_free_keypair_to_uuid. simpl.
  rewrite Habs, Hpool. simpl.
  unfold generate_keypair_for_storage, bind, ret, do_generate_keypair. simpl.
  rewrite Hgen. unfold set_keys, ks_set_keys. simpl. rewrite Habs.
  by destruct kp.
Qed.

Lemma ensure_keypair_exists_generation_fails w uid algo e g :
  cached_keypairs (key_storage w) !! (uid, algo) = None ->
  default [] (free_keypairs (key_storage w) !! algo) = [] ->
  generate_keypair algo None (entropy w) = (Raise e, g) ->
  EscrowApi_ensure_keypair_exists uid algo w
  = (Raise e, mkWorld (key_storage w) g).
Proof.
  intros Habs Hpool Hgen. unfold EscrowApi_ensure_keypair_exists.
  unfold try_except_else at 1. rewrite (get_public_key_absent _ _ _ Habs).
  destruct w as [ks g0]. simpl in *.
  unfold try_except_else, attach_free_keypair_to_uuid,
    ks_attach_free_keypair_to_uuid. simpl.
  rewrite Habs, Hpool. simpl.
  unfold generate_keypair_for_storage, bind, ret, do_generate_keypair. simpl.
  by rewrite Hgen.
Qed.

Lemma stored_after_attach w uid algo kp pool :
  cached_keypairs (key_storage (world_after_attach w uid algo kp pool))
    !! (uid, algo) = Some kp.
Proof. apply lookup_insert_eq. Qed.

Lemma stored_after_generate w uid algo kp g :
  cached_keypairs (key_storage (world_after_generate w uid algo kp g))
    !! (uid, algo) = Some kp.
Proof. apply lookup_insert_eq. Qed.

(** ** [fetch_public_key] *)

Lemma fetch_public_key_after_ensure (self : EscrowApiClass) w w' uid algo kp :
  _ensure_keypair_exists self uid algo w = (Return tt, w') ->
  cached_keypairs (key_storage w') !! (uid, algo) = Some kp ->
  fetch_public_key self uid algo false w = (Return (public_key kp), w').
Proof.
  intros Hens Hkp. unfold fetch_public_key, bind. simpl. rewrite Hens.
  apply (get_public_key_stored _ _ _ _ Hkp).
Qed.

(** C2. [fetch_public_key] of [EscrowApi].  With [must_exist=True] it is a
    read of the key storage: nothing is created and [KeyDoesNotExist] comes
    out when the public key is absent.  With [must_exist=False] it returns
    the stored public key when there is one; otherwise it binds a free
    keypair of the algo to the uid when the pool has one (no key is
    generated: the entropy is untouched), and only when the pool is empty
    generates a keypair, stores it under the uid, and returns its public
    key; a failure of the generation comes out as it is. *)
Theorem fetch_public_key_ensures_keypair w uid algo :
  let ks := key_storage w in
  fetch_public_key EscrowApi uid algo true w = (ks_get_public_key ks uid algo, w)
  /\ (cached_keypairs ks !! (uid, algo) = None ->
      raises (fst (fetch_public_key EscrowApi uid algo true w)) KeyDoesNotExist)
  /\ (forall kp,
      cached_keypairs ks !! (uid, algo) = Some kp ->
      fetch_public_key EscrowApi uid algo false w = (Return (public_key kp), w))
  /\ (forall kp pool,
      cached_keypairs ks !! (uid, algo) = None ->
      default [] (free_keypairs ks !! algo) = kp :: pool ->
      fetch_public_key EscrowApi uid algo false w
      = (Return (public_key kp), world_after_attach w uid algo kp pool))
  /\ (forall kp g,
      cached_keypairs ks !! (uid, algo) = None ->
      default [] (free_keypairs ks !! algo) = [] ->
      generate_keypair algo None (entropy w) = (Return kp, g) ->
      fetch_public_key EscrowApi uid algo false w
      = (Return (public_key kp), world_after_generate w uid algo kp g))
  /\ (forall e g,
      cached_keypairs ks !! (uid, algo) = None ->
      default [] (free_keypairs ks !! algo) = [] ->
      generate_keypair algo None (entropy w) = (Raise e, g) ->
      fetch_public_key EscrowApi uid algo false w
      = (Raise e, mkWorld ks g)).
Proof.
  intros ks. subst ks. repeat apply conj.
  - reflexivity.
  - intros Habs. unfold fetch_public_key, bind. simpl.
    unfold ks_get_public_key. rewrite Habs. by eexists.
  - intros kp Hkp.
    apply (fetch_public_key_after_ensure EscrowApi w w uid algo kp); [|done].
    apply (ensure_keypair_exists_present _ _ _ _ Hkp).
  - intros kp pool Habs Hpool.
    apply fetch_public_key_after_ensure; [|apply stored_after_attach].
    by apply ensure_keypair_exists_attaches.
  - intros kp g Habs Hpool Hgen.
    apply fetch_public_key_after_ensure; [|apply stored_after_generate].
    by apply ensure_keypair_exists_generates.
  - intros e g Habs Hpool Hgen. unfold fetch_public_key, bind. simpl.
    by rewrite (ensure_keypair_exists_generation_fails _ _ _ _ _ Habs Hpool Hgen).
Qed.

(** ** [get_message_signature] *)

Lemma get_message_signature_small (self : EscrowApiClass) w uid message algo :
  (length message <= MAX_PAYLOAD_LENGTH_FOR_SIGNATURE)%nat ->
  get_message_signature self uid message algo w
  = (_ensure_keypair_exists self uid algo >>
     private_key_pem <- get_private_key uid algo ;;
     key <- lift (load_asymmetric_key_from_pem_bytestring
                    private_key_pem algo None) ;;
     do_sign_message message algo key) w.
Proof.
  intros Hlen. unfold get_message_signature.
  by destruct (Nat.ltb_spec MAX_PAYLOAD_LENGTH_FOR_SIGNATURE (length message));
    [lia|].
Qed.

Lemma get_message_signature_after_ensure (self : EscrowApiClass) w w' uid
    message algo kp (k : Key) :
  (length message <= MAX_PAYLOAD_LENGTH_FOR_SIGNATURE)%nat ->
  _ensure_keypair_exists self uid algo w = (Return tt, w') ->
  cached_keypairs (key_storage w') !! (uid, algo) = Some kp ->
  load_asymmetric_key_from_pem_bytestring (private_key kp) algo None
  = Return k ->
  get_message_signature self uid message algo w
  = do_sign_message message algo k w'.
Proof.
  intros Hlen Hens Hkp Hload. rewrite get_message_signature_small by done.
  unfold bind at 1. rewrite Hens. unfold bind at 1.
  rewrite (get_private_key_stored _ _ _ _ Hkp).
  unfold bind, lift. by rewrite Hload.
Qed.

(** C3. [get_message_signature] raises [ValueError] for every message longer
    than 128 bytes, whatever the class, the key storage and the entropy are,
    and leaves the world as it is; for a message of at most 128 bytes the
    size check is passed: the call is the rest of the method (ensure the
    keypair, read the private key, load it, sign), so with a stored loadable
    key it is the signature primitive on the message. *)
Theorem get_message_signature_size_ceiling (self : EscrowApiClass) w uid
    (message : bytes) algo :
  ((128 < length message)%nat ->
   get_message_signature self uid message algo w
   = (Raise (Exn ValueError
               "Message too big for signing, only a hash should be sent"), w))
  /\ ((length message <= 128)%nat ->
      get_message_signature self uid message algo w
      = (_ensure_keypair_exists self uid algo >>
         private_key_pem <- get_private_key uid algo ;;
         key <- lift (load_asymmetric_key_from_pem_bytestring
                        private_key_pem algo None) ;;
         do_sign_message message algo key) w)
  /\ ((length message <= 128)%nat ->
      forall kp k,
        cached_keypairs (key_storage w) !! (uid, algo) = Some kp ->
        load_asymmetric_key_from_pem_bytestring (private_key kp) algo None
        = Return k ->
        get_message_signature EscrowApi uid message algo w
        = do_sign_message message algo k w).
Proof.
  repeat apply conj.
  - intros Hlen. unfold get_message_signature, MAX_PAYLOAD_LENGTH_FOR_SIGNATURE.
    by destruct (Nat.ltb_spec 128 (length message)); [|lia].
  - apply get_message_signature_small.
  - intros Hlen kp k Hkp Hload.
    apply (get_message_signature_after_ensure EscrowApi w w uid message algo
             kp k Hlen); [|done..].
    apply (ensure_keypair_exists_present _ _ _ _ Hkp).
Qed.

(** C10. For a message of at most 128 bytes and no keypair stored for
    [(uid, signature_algo)], [get_message_signature] of [EscrowApi] does not
    raise [KeyDoesNotExist]: it binds a free keypair of the algo to the uid
    when the pool has one, generates and stores a keypair otherwise, and the
    result is what [sign_message] returns on the message, the algo and the
    key loaded, without passphrase, from the private part of that keypair,
    called with the entropy at hand (untouched after binding a free keypair,
    what the generation left otherwise); the world afterwards holds the
    keypair under the uid and the entropy [sign_message] left. *)
Theorem get_message_signature_creates_missing_keypair w uid (message : bytes)
    algo :
  (length message <= 128)%nat ->
  cached_keypairs (key_storage w) !! (uid, algo) = None ->
  (forall kp pool k,
      default [] (free_keypairs (key_storage w) !! algo) = kp :: pool ->
      load_asymmetric_key_from_pem_bytestring (private_key kp) algo None
      = Return k ->
      get_message_signature EscrowApi uid message algo w
      = (fst (sign_message message algo k (entropy w)),
         mkWorld (key_storage (world_after_attach w uid algo kp pool))
                 (snd (sign_message message algo k (entropy w)))))
  /\ (forall kp g k,
      default [] (free_keypairs (key_storage w) !! algo) = [] ->
      generate_keypair algo None (entropy w) = (Return kp, g) ->
      load_asymmetric_key_from_pem_bytestring (private_key kp) algo None
      = Return k ->
      get_message_signature EscrowApi uid message algo w
      = (fst (sign_message message algo k g),
         mkWorld (key_storage (world_after_generate w uid algo kp g))
                 (snd (sign_message message algo k g)))).
Proof.
  intros Hlen Habs. split.
  - intros kp pool k Hpool Hload.
    rewrite (get_message_signature_after_ensure EscrowApi w
               (world_after_attach w uid algo kp pool) uid message algo kp k
               Hlen); [|by apply ensure_keypair_exists_attaches
                      |apply stored_after_attach|done].
    unfold do_sign_message. cbn [entropy world_after_attach].
    by destruct (sign_message message algo k (entropy w)).
  - intros kp g k Hpool Hgen Hload.
    rewrite (get_message_signature_after_ensure EscrowApi w
               (world_after_generate w uid algo kp g) uid message algo kp k
               Hlen); [|by apply ensure_keypair_exists_generates
                      |apply stored_after_generate|done].
    unfold do_sign_message. cbn [entropy world_after_generate].
    by destruct (sign_message message algo k g).
Qed.

(** ** [ReadonlyEscrowApi] *)

Lemma readonly_ensure_keypair_exists_world w uid algo :
  snd (ReadonlyEscrowApi_ensure_keypair_exists uid algo w) = w.
Proof.
  unfold ReadonlyEscrowApi_ensure_keypair_exists, try_except_else,
    get_public_key.
  destruct (ks_get_public_key _ _ _) as [pub|e]; [done|].
  by destruct (decide _).
Qed.

(** C6. [fetch_public_key] of [ReadonlyEscrowApi] leaves the world (key
    storage and entropy) as it is for every value of [must_exist], and when
    no keypair is stored for [(uid, algo)] it raises [KeyDoesNotExist] for
    every value of [must_exist]. *)
Theorem readonly_fetch_public_key_never_creates w uid algo (must_exist : bool) :
  snd (fetch_public_key ReadonlyEscrowApi uid algo must_exist w) = w
  /\ (cached_keypairs (key_storage w) !! (uid, algo) = None ->
      raises (fst (fetch_public_key ReadonlyEscrowApi uid algo must_exist w))
             KeyDoesNotExist).
Proof.
  split.
  - unfold fetch_public_key, bind. destruct must_exist; simpl; [done|].
    pose proof (readonly_ensure_keypair_exists_world w uid algo) as Hw.
    destruct (ReadonlyEscrowApi_ensure_keypair_exists uid algo w)
      as [[[]|e] w']; simpl in *; by subst.
  - intros Habs. unfold fetch_public_key, bind. destruct must_exist; simpl.
    + unfold ks_get_public_key. rewrite Habs. by eexists.
    + unfold ReadonlyEscrowApi_ensure_keypair_exists, try_except_else.
      rewrite (get_public_key_absent _ _ _ Habs). simpl. by eexists.
Qed.

(** ** [request_decryption_authorization] on an empty request *)

(** C9, amended. With no keypair identifier, and [passphrases] being [None],
    a list, a tuple or an empty string, [request_decryption_authorization]
    raises [ValueError], for every class, request message and world, and
    leaves the world as it is; with a non-empty string as [passphrases] the
    assertion on [passphrases] fails before the identifiers are looked at. *)
Theorem request_decryption_authorization_empty (self : EscrowApiClass)
    (request_message : string) (passphrases : py_passphrases) w :
  ((forall s, passphrases = PyStr s -> s = EmptyString) ->
   request_decryption_authorization self [] request_message passphrases w
   = (Raise (Exn ValueError
        "Keypair identifiers must not be empty, when requesting decryption authorization"),
      w))
  /\ (forall s, passphrases = PyStr s -> s <> EmptyString ->
      request_decryption_authorization self [] request_message passphrases w
      = (Raise (Exn AssertionError (py_repr passphrases)), w)).
Proof.
  split.
  - intros Hstr. destruct passphrases as [|l|l|s].
    + reflexivity.
    + by destruct l.
    + by destruct l.
    + by rewrite (Hstr s eq_refl).
  - intros s -> Hs. by destruct s.
Qed.

(** ** The loop of [request_decryption_authorization] *)

Section Policy.
Variable denied : UUID -> string -> option string.
Variable base : EscrowApiClass.

Let self : EscrowApiClass := with_authorization_policy denied base.

Lemma check_one_keypair_policy passphrases st x w :
  check_one_keypair self passphrases st x w
  = (match outcome_of denied (key_storage w) passphrases x with
     | Return s => Return (append_status s st x)
     | Raise e => Raise e
     end, w).
Proof.
  unfold check_one_keypair, outcome_of, self. simpl.
  unfold try_except_else at 1.
  destruct (denied (keychain_uid x) (key_algo x)) as [msg|]; [done|]. simpl.
  unfold try_except_else at 1, get_private_key, ks_get_private_key.
  destruct (cached_keypairs (key_storage w) !! _) as [kp|]; [|done].
  unfold try_except_else, bind, lift, assert_.
  destruct (_decrypt_private_key_pem_with_passphrases _ _ _) as [k|e].
  - by destruct (key_truthy k).
  - by destruct (decide _).
Qed.

Lemma extend_statuses_cons ks passphrases st x ids s :
  outcome_of denied ks passphrases x = Return s ->
  extend_statuses denied ks passphrases (append_status s st x) ids
  = extend_statuses denied ks passphrases st (x :: ids).
Proof.
  intros Hx. unfold extend_statuses, has_outcome. simpl. rewrite Hx.
  destruct s; simpl; by rewrite <- ?app_assoc.
Qed.

Lemma check_keypairs_policy passphrases ids st w :
  check_keypairs self passphrases ids st w
  = (match first_error denied (key_storage w) passphrases ids with
     | None =>
         Return (extend_statuses denied (key_storage w) passphrases st ids)
     | Some e => Raise e
     end, w).
Proof.
  revert st. induction ids as [|x ids IH]; intros st.
  - destruct st. unfold extend_statuses. simpl. by rewrite !app_nil_r.
  - simpl. unfold bind. rewrite check_one_keypair_policy.
    destruct (outcome_of denied (key_storage w) passphrases x) as [s|e] eqn:Hx;
      [|done].
    rewrite IH. by rewrite (extend_statuses_cons _ _ _ _ _ _ Hx).
Qed.

Lemma first_error_None ks passphrases ids :
  first_error denied ks passphrases ids = None ->
  forall x, In x ids -> exists s, outcome_of denied ks passphrases x = Return s.
Proof.
  induction ids as [|y ids IH]; simpl; [done|].
  destruct (outcome_of denied ks passphrases y) as [s|e] eqn:Hy; [|done].
  intros Hrest x [<-|Hin]; eauto.
Qed.

Lemma first_error_all_return ks passphrases ids :
  (forall x, In x ids -> is_return (outcome_of denied ks passphrases x) = true) ->
  first_error denied ks passphrases ids = None.
Proof.
  induction ids as [|y ids IH]; simpl; [done|]. intros Hall.
  pose proof (Hall y (or_introl eq_refl)) as Hy.
  destruct (outcome_of denied ks passphrases y); [|done].
  apply IH. intros x Hx. apply Hall. by right.
Qed.

(** The four parts of a list classified by [outcome_of]. *)
Lemma outcome_parts_permutation ks passphrases ids :
  first_error denied ks passphrases ids = None ->
  let part s := List.filter (has_outcome denied ks passphrases s) ids in
  Permutation (part StatusMissingPrivateKey ++ part StatusAuthorizationMissing
               ++ part StatusMissingPassphrase ++ part StatusAccepted)%list
              ids.
Proof.
  induction ids as [|x ids IH]; [constructor|].
  cbn [first_error List.filter].
  destruct (outcome_of denied ks passphrases x) as [s|e] eqn:Hx; [|done].
  assert (forall s', has_outcome denied ks passphrases s' x
                     = bool_decide (s = s')) as Hh.
  { intros s'. unfold has_outcome. by rewrite Hx. }
  rewrite !Hh. intros Hrest. specialize (IH Hrest). cbv zeta in IH.
  destruct s; simpl; symmetry.
  - apply Permutation_cons_app. by symmetry.
  - apply perm_skip. by symmetry.
  - rewrite app_assoc. apply Permutation_cons_app.
    rewrite <- app_assoc. by symmetry.
  - rewrite 2!app_assoc. apply Permutation_cons_app.
    rewrite <- 2!app_assoc. by symmetry.
Qed.

Lemma outcome_parts_total ks passphrases ids :
  first_error denied ks passphrases ids = None ->
  statuses_total
    (extend_statuses denied ks passphrases (mkStatuses [] [] [] []) ids)
  = length ids.
Proof.
  intros Hok. pose proof (outcome_parts_permutation _ _ _ Hok) as Hperm.
  apply Permutation_length in Hperm. cbv zeta in Hperm.
  rewrite !length_app in Hperm. unfold statuses_total, extend_statuses.
  simpl. lia.
Qed.

(** The result built from the four lists [st] for the request [ids]. *)
Lemma request_decryption_authorization_policy x ids request_message
    passphrases w :
  let passphrases' := or_empty_list passphrases in
  let ks := key_storage w in
  request_decryption_authorization self (x :: ids) request_message passphrases w
  = (if isinstance_tuple_or_list passphrases' then
       match first_error denied ks passphrases' (x :: ids) with
       | Some e => Raise e
       | None =>
           let st := extend_statuses denied ks passphrases'
                       (mkStatuses [] [] [] []) (x :: ids) in
           let has_errors :=
             (length (accepted st) <? length (x :: ids))%nat in
           Return (mkAuthorizationResult
                     (if has_errors then "Decryption request denied"
                      else "Decryption request accepted")
                     has_errors st)
       end
     else Raise (Exn AssertionError (py_repr passphrases')), w).
Proof.
  intros passphrases' ks. unfold request_decryption_authorization.
  fold passphrases'. unfold bind at 1, assert_.
  destruct (isinstance_tuple_or_list passphrases'); [|done].
  unfold ret at 1. unfold bind at 1. rewrite check_keypairs_policy. fold ks.
  destruct (first_error denied ks passphrases' (x :: ids)) eqn:Hok; [done|].
  unfold bind, assert_. rewrite (outcome_parts_total _ _ _ Hok).
  by rewrite Nat.eqb_refl.
Qed.

Lemma request_decryption_authorization_returns ids request_message
    passphrases w w' r :
  request_decryption_authorization self ids request_message passphrases w
  = (Return r, w') ->
  let passphrases' := or_empty_list passphrases in
  let st := extend_statuses denied (key_storage w) passphrases'
              (mkStatuses [] [] [] []) ids in
  w' = w
  /\ first_error denied (key_storage w) passphrases' ids = None
  /\ keypair_statuses r = st
  /\ has_errors r = (length (accepted st) <? length ids)%nat
  /\ response_message r = (if has_errors r then "Decryption request denied"
                           else "Decryption request accepted").
Proof.
  destruct ids as [|x ids].
  - unfold request_decryption_authorization, bind, assert_.
    by destruct (isinstance_tuple_or_list _).
  - rewrite request_decryption_authorization_policy.
    destruct (isinstance_tuple_or_list _); [|done].
    destruct (first_error _ _ _ _) eqn:Hok; [done|].
    cbv zeta. intros [= <- <-]. done.
Qed.

End Policy.

(** The base class is the policy that denies nothing. *)
Lemma EscrowApi_denies_nothing :
  EscrowApi = with_authorization_policy (fun _ _ => None) EscrowApi.
Proof. reflexivity. Qed.

(** ** Key loading under its contract *)

Lemma forall_fails_not_loads pem algo candidates :
  Forall (fails_to_load pem algo) candidates ->
  existsb (loads pem algo) candidates = false.
Proof.
  induction 1 as [|c l [msg Hc] _ IH]; simpl; [done|].
  unfold loads at 1. by rewrite Hc.
Qed.

Lemma not_loads_forall_fails pem algo candidates :
  (forall c, In c candidates -> loads_or_fails pem algo c) ->
  existsb (loads pem algo) candidates = false ->
  Forall (fails_to_load pem algo) candidates.
Proof.
  induction candidates as [|c l IH]; simpl; [constructor|].
  intros Hcontract [Hc Hl]%orb_false_elim.
  constructor; [|apply IH; [intros; apply Hcontract|]; tauto].
  pose proof (Hcontract c (or_introl eq_refl)) as Hone.
  unfold loads in Hc. unfold loads_or_fails in Hone.
  unfold fails_to_load, raises.
  destruct (load_asymmetric_key_from_pem_bytestring pem algo c) as [k|e];
    [done|].
  destruct e as [cls msg]. simpl in Hone. subst. by eexists.
Qed.

Lemma exists_loads_iff pem algo candidates :
  Exists (fun c => loads pem algo c = true) candidates
  <-> existsb (loads pem algo) candidates = true.
Proof.
  rewrite List.Exists_exists, existsb_exists. reflexivity.
Qed.

Lemma try_passphrases_contract pem algo candidates :
  (forall c, In c candidates -> loads_or_fails pem algo c) ->
  if existsb (loads pem algo) candidates
  then exists k, try_passphrases pem algo candidates = Return (Some k)
                 /\ key_truthy k = true
  else try_passphrases pem algo candidates = Return None.
Proof.
  induction candidates as [|c l IH]; simpl; [done|]. intros Hcontract.
  pose proof (Hcontract c (or_introl eq_refl)) as Hone.
  unfold loads at 1. unfold loads_or_fails in Hone.
  destruct (load_asymmetric_key_from_pem_bytestring pem algo c) as [k|e];
    simpl.
  - exists k. by split.
  - rewrite Hone. simpl. apply IH. intros c' Hc'. apply Hcontract. by right.
Qed.

Lemma outcome_of_list denied ks ids supplied x :
  loading_contract_on denied ks ids supplied ->
  In x ids ->
  outcome_of denied ks (PyList supplied) x
  = Return (status_of denied ks supplied x).
Proof.
  intros Hc Hx. unfold outcome_of, status_of.
  destruct (denied _ _) eqn:Hd; [done|].
  destruct (cached_keypairs ks !! _) as [kp|] eqn:Hkp; [|done].
  unfold _decrypt_private_key_pem_with_passphrases. simpl list_None_plus.
  cbv iota.
  pose proof (try_passphrases_contract (private_key kp) (key_algo x)
                (None :: map Some supplied)
                (fun c Hin => Hc x kp c Hx Hd Hkp Hin)) as Htry.
  destruct (existsb _ _).
  - destruct Htry as (k & -> & ->). done.
  - rewrite Htry. done.
Qed.

(** Closes the cases of [classified_as]: an impossible equation between a
    result and an exception, or the witnesses at hand. *)
Ltac solve_status :=
  try discriminate;
  try reflexivity;
  repeat match goal with
    | H : _ /\ _ |- _ => destruct H
    | H : exists _, _ |- _ => destruct H
    | H : Return _ = Raise _ |- _ => discriminate H
    | H : Raise _ = Return _ |- _ => discriminate H
    | H : Return _ = Return _ |- _ => injection H as H; subst
    end;
  try contradiction;
  try (split; [reflexivity|]);
  try (eexists; split; [reflexivity|]);
  try (eexists; reflexivity);
  try assumption.

Lemma classified_as_status_of denied w ids supplied x s :
  loading_contract_on denied (key_storage w) ids supplied ->
  In x ids ->
  classified_as (with_authorization_policy denied EscrowApi) w supplied x s
  <-> status_of denied (key_storage w) supplied x = s.
Proof.
  intros Hc Hx. unfold classified_as, status_of, get_private_key,
    ks_get_private_key, raises.
  cbn [fst _check_keypair_authorization with_authorization_policy key_storage].
  destruct (denied (keychain_uid x) (key_algo x)) as [msg|] eqn:Hd;
    unfold raise, ret; cbn [fst]; cbv beta iota zeta.
  { destruct s; split; intros H; solve_status. }
  destruct (cached_keypairs (key_storage w) !! _) as [kp|] eqn:Hkp.
  2:{ destruct s; split; intros H; solve_status. }
  pose proof (fun c Hin => Hc x kp c Hx Hd Hkp Hin) as Hcontract.
  destruct (existsb (loads (private_key kp) (key_algo x))
                    (None :: map Some supplied)) eqn:Hex.
  - assert (Exists (fun c => loads (private_key kp) (key_algo x) c = true)
                   (None :: map Some supplied)) as Hsome
      by by apply exists_loads_iff.
    assert (~ Forall (fails_to_load (private_key kp) (key_algo x))
                     (None :: map Some supplied)) as Hnot.
    { intros Hall%forall_fails_not_loads. congruence. }
    destruct s; split; intros H; solve_status.
  - assert (Forall (fails_to_load (private_key kp) (key_algo x))
                   (None :: map Some supplied)) as Hall
      by (apply not_loads_forall_fails; [exact Hcontract|done]).
    assert (~ Exists (fun c => loads (private_key kp) (key_algo x) c = true)
                     (None :: map Some supplied)) as Hnot.
    { intros Hsome%exists_loads_iff. congruence. }
    destruct s; split; intros H; solve_status.
Qed.

Lemma has_outcome_list denied ks ids supplied s x :
  loading_contract_on denied ks ids supplied ->
  In x ids ->
  has_outcome denied ks (PyList supplied) s x
  = bool_decide (status_of denied ks supplied x = s).
Proof.
  intros Hc Hx. unfold has_outcome.
  by rewrite (outcome_of_list _ _ _ _ _ Hc Hx).
Qed.

Lemma extend_statuses_list denied ks supplied ids :
  loading_contract_on denied ks ids supplied ->
  extend_statuses denied ks (PyList supplied) (mkStatuses [] [] [] []) ids
  = mkStatuses (with_status denied ks supplied StatusMissingPrivateKey ids)
               (with_status denied ks supplied StatusAuthorizationMissing ids)
               (with_status denied ks supplied StatusMissingPassphrase ids)
               (with_status denied ks supplied StatusAccepted ids).
Proof.
  intros Hc. unfold extend_statuses, with_status. simpl.
  f_equal; apply List.filter_ext_in; intros x Hx;
    by apply (has_outcome_list _ _ ids).
Qed.

(** C4, amended. For every non-empty list of keypair identifiers and
    [passphrases] given as a list (or [None], which is the empty list),
    where loading a stored private key of the request with [None] or a
    supplied passphrase either returns a truthy key or fails with
    [KeyLoadingError] (nothing is asked of the loader elsewhere),
    [request_decryption_authorization] returns, leaves the world as it is,
    and its four lists are the identifiers of each status in request order:
    [authorization_missing] where the authorization check raises
    [AuthorizationError], [missing_private_key] where it passes and the
    private key lookup raises [KeyDoesNotExist], [missing_passphrase] where
    the key is found and neither [None] nor a supplied passphrase loads it,
    [accepted] where one of them does. *)
Theorem request_decryption_authorization_classifies
    (denied : UUID -> string -> option string) w
    (ids : list keypair_identifier) (request_message : string)
    (supplied : list string) :
  ids <> [] ->
  loading_contract_on denied (key_storage w) ids supplied ->
  let self := with_authorization_policy denied EscrowApi in
  let ks := key_storage w in
  (forall x s,
      In x ids ->
      (classified_as self w supplied x s
       <-> status_of denied ks supplied x = s))
  /\ (exists r,
      request_decryption_authorization self ids request_message
        (PyList supplied) w = (Return r, w)
      /\ keypair_statuses r
         = mkStatuses
             (with_status denied ks supplied StatusMissingPrivateKey ids)
             (with_status denied ks supplied StatusAuthorizationMissing ids)
             (with_status denied ks supplied StatusMissingPassphrase ids)
             (with_status denied ks supplied StatusAccepted ids))
  /\ request_decryption_authorization self ids request_message PyNone w
     = request_decryption_authorization self ids request_message (PyList []) w.
Proof.
  intros Hne Hc self ks. split; [|split; [|reflexivity]].
  - intros x s Hx. by apply (classified_as_status_of denied w ids).
  - destruct ids as [|x0 ids0]; [done|].
    unfold self. rewrite request_decryption_authorization_policy.
    rewrite or_empty_list_PyList. cbn [isinstance_tuple_or_list].
    rewrite first_error_all_return.
    2:{ intros y Hy. by rewrite (outcome_of_list _ _ _ _ _ Hc Hy). }
    eexists. split; [reflexivity|]. cbn [keypair_statuses].
    by apply extend_statuses_list.
Qed.

Lemma has_outcome_never_denied ks passphrases x :
  has_outcome (fun _ _ => None) ks passphrases StatusAuthorizationMissing x
  = false.
Proof.
  unfold has_outcome, outcome_of.
  destruct (cached_keypairs ks !! _) as [kp|]; [|done].
  destruct (_decrypt_private_key_pem_with_passphrases _ _ _) as [k|e].
  - by destruct (key_truthy k).
  - by destruct (decide _).
Qed.

Lemma filter_none {A} (f : A -> bool) (l : list A) :
  (forall x, f x = false) -> List.filter f l = [].
Proof.
  intros Hf. induction l as [|x l IH]; simpl; [done|]. by rewrite Hf.
Qed.

(** C7. Whenever [request_decryption_authorization] of the base class
    [EscrowApi] returns a result, whatever the identifiers, the request
    message and the passphrases are, its [authorization_missing] list is
    empty. *)
Theorem base_class_never_reports_authorization_missing w w'
    (ids : list keypair_identifier) (request_message : string)
    (passphrases : py_passphrases) (r : authorization_result) :
  request_decryption_authorization EscrowApi ids request_message passphrases w
  = (Return r, w') ->
  authorization_missing (keypair_statuses r) = [].
Proof.
  rewrite EscrowApi_denies_nothing. intros Hret.
  apply request_decryption_authorization_returns in Hret
    as (_ & _ & -> & _). cbv zeta. unfold extend_statuses. simpl.
  apply filter_none. intros x. apply has_outcome_never_denied.
Qed.

Lemma in_part_iff denied ks passphrases ids x s0 s :
  outcome_of denied ks passphrases x = Return s0 ->
  In x ids ->
  In x ([] ++ List.filter (has_outcome denied ks passphrases s) ids)
  <-> s0 = s.
Proof.
  intros Hx Hin. simpl. rewrite filter_In. unfold has_outcome. rewrite Hx.
  rewrite bool_decide_eq_true. tauto.
Qed.

(** C8. In every result that [request_decryption_authorization] returns, for
    the base class and for its subclasses with a permission policy: the four
    lists together are a permutation of the identifiers supplied, so their
    lengths add up to the number of identifiers; each identifier supplied
    occurs in exactly one of the lists; [has_errors] holds exactly when the
    [accepted] list is shorter than the input; and [response_message] is
    "Decryption request denied" when [has_errors] holds and "Decryption
    request accepted" otherwise. *)
Theorem request_decryption_authorization_partitions
    (denied : UUID -> string -> option string) w w'
    (ids : list keypair_identifier) (request_message : string)
    (passphrases : py_passphrases) (r : authorization_result) :
  request_decryption_authorization (with_authorization_policy denied EscrowApi)
    ids request_message passphrases w = (Return r, w') ->
  let st := keypair_statuses r in
  Permutation (missing_private_key st ++ authorization_missing st
               ++ missing_passphrase st ++ accepted st)%list ids
  /\ statuses_total st = length ids
  /\ (forall x, In x ids -> lists_containing x st = 1%nat)
  /\ (has_errors r = true <-> (length (accepted st) < length ids)%nat)
  /\ response_message r = (if has_errors r then "Decryption request denied"
                           else "Decryption request accepted").
Proof.
  intros Hret st.
  apply request_decryption_authorization_returns in Hret
    as (_ & Hok & Hst & Herr & Hmsg). cbv zeta in Hst, Herr.
  fold st in Hst, Herr. split; [|split; [|split; [|split]]].
  - rewrite Hst. apply (outcome_parts_permutation _ _ _ _ Hok).
  - rewrite Hst. apply (outcome_parts_total _ _ _ _ Hok).
  - intros x Hin.
    destruct (first_error_None _ _ _ _ Hok x Hin) as [s0 Hx].
    unfold lists_containing. rewrite Hst. unfold extend_statuses.
    cbn [missing_private_key authorization_missing missing_passphrase accepted].
    repeat match goal with
      | |- context [in_dec ?d ?y ?l] =>
          let Hl := fresh "Hl" in
          destruct (in_dec d y l) as [Hl|Hl];
          rewrite (in_part_iff _ _ _ _ _ _ _ Hx Hin) in Hl
      end;
      first [reflexivity | destruct s0; congruence].
  - rewrite Herr, Hst. exact (Nat.ltb_lt _ _).
  - exact Hmsg.
Qed.

(** ** The order on [(count, key_algo)] tuples and [min] *)

Lemma string_ltb_false_iff (a b : string) :
  String.ltb a b = false <-> String.leb b a = true.
Proof.
  unfold String.ltb, String.leb. rewrite (String.compare_antisym b a).
  destruct (String.compare a b); simpl; split; congruence.
Qed.

Lemma string_leb_trans (a b c : string) :
  String.leb a b = true -> String.leb b c = true -> String.leb a c = true.
Proof.
  intros Hab%Is_true_true Hbc%Is_true_true. apply Is_true_true.
  exact (transitivity (R := String.le) Hab Hbc).
Qed.

Lemma string_leb_refl (a : string) : String.leb a a = true.
Proof. apply Is_true_true. exact (reflexivity (R := String.le) a). Qed.

Lemma tuple_lt_false_iff (a b : nat * string) :
  tuple_lt b a = false <-> tuple_le a b.
Proof.
  unfold tuple_lt, tuple_le. destruct a as [n s], b as [m t]. simpl.
  rewrite orb_false_iff, andb_false_iff, Nat.ltb_ge, Nat.eqb_neq,
    string_ltb_false_iff.
  split.
  - intros [Hle [Hne|Hst]]; [left; lia|].
    destruct (decide (n = m)) as [->|]; [by right|left; lia].
  - intros [Hlt|[-> Hst]]; (split; [lia|]); [left; lia|by right].
Qed.

Lemma tuple_le_refl (a : nat * string) : tuple_le a a.
Proof. right. split; [done|apply string_leb_refl]. Qed.

Lemma tuple_le_trans (a b c : nat * string) :
  tuple_le a b -> tuple_le b c -> tuple_le a c.
Proof.
  unfold tuple_le. intros [Hab|[Hab Hsab]] [Hbc|[Hbc Hsbc]].
  - left; lia.
  - left; lia.
  - left; lia.
  - right. split; [congruence|]. by eapply string_leb_trans.
Qed.

Lemma tuple_lt_true_le (a b : nat * string) :
  tuple_lt a b = true -> tuple_le a b.
Proof.
  unfold tuple_lt, tuple_le. destruct a as [n s], b as [m t]. simpl.
  intros [Hlt%Nat.ltb_lt|[->%Nat.eqb_eq Hst]%andb_true_iff]%orb_true_iff;
    [by left|right]. split; [done|].
  unfold String.ltb in Hst. unfold String.leb.
  by destruct (String.compare s t).
Qed.

Lemma fold_min_le_start (items : list (nat * string)) (x : nat * string) :
  tuple_le (fold_left min_step items x) x.
Proof.
  revert x. induction items as [|y items IH]; intros x; simpl.
  - apply tuple_le_refl.
  - eapply tuple_le_trans; [apply IH|]. unfold min_step.
    destruct (tuple_lt y x) eqn:Hlt.
    + by apply tuple_lt_true_le.
    + apply tuple_le_refl.
Qed.

Lemma fold_min_le_items (items : list (nat * string)) (x v : nat * string) :
  In v items -> tuple_le (fold_left min_step items x) v.
Proof.
  revert x. induction items as [|y items IH]; intros x; simpl; [done|].
  intros [->|Hin]; [|by apply IH].
  eapply tuple_le_trans; [apply fold_min_le_start|]. unfold min_step.
  destruct (tuple_lt v x) eqn:Hlt.
  - apply tuple_le_refl.
  - by apply tuple_lt_false_iff.
Qed.

Lemma fold_min_in (items : list (nat * string)) (x : nat * string) :
  In (fold_left min_step items x) (x :: items).
Proof.
  revert x. induction items as [|y items IH]; intros x; simpl; [by left|].
  destruct (IH (min_step x y)) as [Heq|Hin]; [|by right; right].
  rewrite <- Heq. unfold min_step. destruct (tuple_lt y x); auto.
Qed.

Lemma py_min_least (items : list (nat * string)) (m : nat * string) :
  py_min items = Some m ->
  In m items /\ forall v, In v items -> tuple_le m v.
Proof.
  destruct items as [|x items]; simpl; [done|]. intros [= <-].
  split; [apply fold_min_in|].
  intros v [<-|Hin]; [apply fold_min_le_start|by apply fold_min_le_items].
Qed.

(** ** The free keys generator *)

Lemma free_keys_counts_of_run (key_algos : list string) w :
  free_keys_counts_of key_algos w
  = (Return (map (fun a => (ks_get_free_keypairs_count (key_storage w) a, a))
                 key_algos), w).
Proof.
  induction key_algos as [|a l IH]; simpl; [done|].
  unfold bind at 1, get_free_keypairs_count at 1. unfold bind at 1.
  by rewrite IH.
Qed.

Lemma count_after_add_free_keypair ks algo pub priv a :
  ks_get_free_keypairs_count (ks_add_free_keypair ks algo pub priv) a
  = if decide (a = algo) then S (ks_get_free_keypairs_count ks a)
    else ks_get_free_keypairs_count ks a.
Proof.
  unfold ks_get_free_keypairs_count, ks_add_free_keypair. simpl.
  destruct (decide (a = algo)) as [->|Hne].
  - by rewrite lookup_insert_eq.
  - by rewrite lookup_insert_ne.
Qed.

(** C5. For a non-empty [key_algos],
    [generate_free_keypair_for_least_provisioned_key_algo] selects the algo
    [algo] of [key_algos] whose free keypair count is smallest and, among
    those of that count, whose name is smallest in lexicographic order.  If
    that count is at least [max_free_keys_per_algo] the call returns [False]
    and leaves the world as it is.  Otherwise it calls the generation
    function once, for [algo]; when that returns a keypair, the call returns
    [True] and the keypair is added to the free pool of [algo]: the count of
    [algo] grows by one, the other counts and the bound keypairs stay; the
    default generation function leaves the key storage to that single
    addition.  A failure of the generation comes out as it is. *)
Theorem generate_free_keypair_for_least_provisioned
    (max_free_keys_per_algo : Z) (key_generation_func : string -> M keypair)
    (key_algos : list string) w :
  key_algos <> [] ->
  let count_in (v : World) a := ks_get_free_keypairs_count (key_storage v) a in
  let run f :=
    generate_free_keypair_for_least_provisioned_key_algo
      max_free_keys_per_algo f key_algos w in
  exists algo,
    In algo key_algos
    /\ (forall a, In a key_algos ->
          (count_in w algo <= count_in w a)%nat
          /\ (count_in w a = count_in w algo -> String.leb algo a = true))
    /\ ((max_free_keys_per_algo <= Z.of_nat (count_in w algo))%Z ->
        run key_generation_func = (Return false, w))
    /\ ((Z.of_nat (count_in w algo) < max_free_keys_per_algo)%Z ->
        (forall kp w',
            key_generation_func algo w = (Return kp, w') ->
            exists w'',
              run key_generation_func = (Return true, w'')
              /\ key_storage w''
                 = ks_add_free_keypair (key_storage w') algo
                     (public_key kp) (private_key kp)
              /\ entropy w'' = entropy w'
              /\ count_in w'' algo = S (count_in w' algo)
              /\ (forall a, a <> algo -> count_in w'' a = count_in w' a)
              /\ cached_keypairs (key_storage w'')
                 = cached_keypairs (key_storage w'))
        /\ (forall e w',
            key_generation_func algo w = (Raise e, w') ->
            run key_generation_func = (Raise e, w'))
        /\ (forall kp g,
            generate_keypair algo None (entropy w) = (Return kp, g) ->
            run default_key_generation_func
            = (Return true,
               mkWorld (ks_add_free_keypair (key_storage w) algo
                          (public_key kp) (private_key kp)) g))).
Proof.
  intros Hne count_in run.
  assert (forall f, run f
    = match py_min (map (fun a => (count_in w a, a)) key_algos) with
      | None => (Raise (Exn ValueError "min() arg is an empty sequence"), w)
      | Some (count, algo) =>
          if (max_free_keys_per_algo <=? Z.of_nat count)%Z
          then (Return false, w)
          else (kp <- f algo ;;
                add_free_keypair algo (public_key kp) (private_key kp) >>
                ret true) w
      end) as Hrun.
  { intros f. unfold run, generate_free_keypair_for_least_provisioned_key_algo.
    destruct key_algos as [|a0 l]; [done|].
    unfold bind at 1. cbn [length Nat.eqb negb assert_]. unfold ret at 1.
    unfold bind at 1. rewrite free_keys_counts_of_run.
    destruct (py_min _) as [[count algo]|]; [|done].
    by destruct (_ <=? _)%Z. }
  destruct (py_min (map (fun a => (count_in w a, a)) key_algos))
    as [[count algo]|] eqn:Hmin.
  2:{ by destruct key_algos. }
  apply py_min_least in Hmin as [Hin Hleast].
  apply in_map_iff in Hin as (algo' & [= Hcount <-] & Hin). subst count.
  exists algo'. split; [done|]. split; [|split].
  - intros a Ha.
    assert (tuple_le (count_in w algo', algo') (count_in w a, a)) as Hle.
    { apply Hleast, in_map_iff. by exists a. }
    destruct Hle as [Hlt|[Heq Hs]]; simpl in *; split; try lia; try done.
  - intros Hfull. rewrite Hrun.
    by destruct (Z.leb_spec max_free_keys_per_algo
                   (Z.of_nat (count_in w algo'))); [|lia].
  - intros Hroom.
    assert (forall f, run f
      = (kp <- f algo' ;;
         add_free_keypair algo' (public_key kp) (private_key kp) >>
         ret true) w) as Hrun'.
    { intros f. rewrite Hrun.
      by destruct (Z.leb_spec max_free_keys_per_algo
                     (Z.of_nat (count_in w algo'))); [lia|]. }
    split; [|split].
    + intros kp w' Hgen. rewrite Hrun'. unfold bind at 1. rewrite Hgen.
      eexists. split; [reflexivity|]. simpl. unfold count_in. simpl.
      split; [done|]. split; [done|].
      split; [|split; [|done]].
      * rewrite count_after_add_free_keypair. by rewrite decide_True.
      * intros a Ha. rewrite count_after_add_free_keypair.
        by rewrite decide_False.
    + intros e w' Hgen. rewrite Hrun'. unfold bind at 1. by rewrite Hgen.
    + intros kp g Hgen. rewrite Hrun'. unfold bind at 1.
      unfold default_key_generation_func, do_generate_keypair.
      by rewrite Hgen.
Qed.

End EscrowProofs.

(** * The properties at work on the small instance *)

Section Witnesses.
#[local] Existing Instance Toy.primitives.

Lemma toy_loads_or_fails pem algo candidate :
  loads_or_fails pem algo candidate.
Proof.
  unfold loads_or_fails. simpl. unfold Toy.load.
  destruct pem as [|tag rest]; [reflexivity|].
  destruct (Byte.eqb tag x00); [reflexivity|].
  destruct (Byte.eqb tag x01); [|reflexivity].
  destruct candidate as [p|]; [|reflexivity].
  destruct (String.eqb p "secret"); reflexivity.
Defined.

Lemma toy_loading_contract_on denied ks ids supplied :
  loading_contract_on denied ks ids supplied.
Proof. intros x kp candidate _ _ _ _. apply toy_loads_or_fails. Defined.

Lemma decrypt_with_private_key_candidates_in_order_witness :
  cached_keypairs (key_storage Toy.world1) !! (2%N, "RSA_OAEP")
  = Some Toy.locked_pair
  /\ decrypt_with_private_key EscrowApi 2%N "RSA_OAEP" [x61]
       (PyList ["wrong"; "secret"]) Toy.world1 = (Return [x61], Toy.world1)
  /\ exists msg,
       decrypt_with_private_key EscrowApi 2%N "RSA_OAEP" [x61]
         (PyList ["wrong"]) Toy.world1
       = (Raise (Exn DecryptionError msg), Toy.world1)
       /\ String.prefix "Could not decrypt private key" msg = true.
Proof.
  split; [vm_compute; reflexivity|]. split.
  - destruct (decrypt_with_private_key_candidates_in_order EscrowApi
                Toy.world1 2%N [x61] Toy.locked_pair ["wrong"; "secret"])
      as (Hfirst & _); [vm_compute; reflexivity|].
    apply (Hfirst [None; Some "wrong"] (Some "secret") [] 1%nat);
      [reflexivity| |reflexivity].
    repeat constructor; eexists; reflexivity.
  - destruct (decrypt_with_private_key_candidates_in_order EscrowApi
                Toy.world1 2%N [x61] Toy.locked_pair ["wrong"])
      as (_ & Hnone & _); [vm_compute; reflexivity|].
    apply Hnone. repeat constructor; eexists; reflexivity.
Defined.

Lemma fetch_public_key_ensures_keypair_witness :
  cached_keypairs (key_storage Toy.world1) !! (9%N, "DSA_DSS") = None
  /\ default [] (free_keypairs (key_storage Toy.world1) !! "DSA_DSS")
     = [Toy.plain_pair]
  /\ fetch_public_key EscrowApi 9%N "DSA_DSS" false Toy.world1
     = (Return [x10],
        world_after_attach Toy.world1 9%N "DSA_DSS" Toy.plain_pair [])
  /\ raises (fst (fetch_public_key EscrowApi 9%N "DSA_DSS" true Toy.world1))
            KeyDoesNotExist.
Proof.
  split; [vm_compute; reflexivity|]. split; [vm_compute; reflexivity|].
  destruct (fetch_public_key_ensures_keypair Toy.world1 9%N "DSA_DSS")
    as (_ & Habsent & _ & Hattach & _).
  split.
  - apply (Hattach Toy.plain_pair []); vm_compute; reflexivity.
  - apply Habsent. vm_compute; reflexivity.
Defined.

Lemma get_message_signature_size_ceiling_witness :
  (128 < length (repeat x61 129))%nat
  /\ get_message_signature EscrowApi 1%N (repeat x61 129) "RSA_OAEP"
       Toy.world1
     = (Raise (Exn ValueError
                 "Message too big for signing, only a hash should be sent"),
        Toy.world1)
  /\ (length (repeat x61 128) <= 128)%nat
  /\ get_message_signature EscrowApi 1%N (repeat x61 128) "RSA_OAEP"
       Toy.world1
     = do_sign_message (repeat x61 128) "RSA_OAEP" 2%nat Toy.world1.
Proof.
  split; [rewrite repeat_length; lia|]. split.
  - apply (get_message_signature_size_ceiling EscrowApi Toy.world1 1%N
             (repeat x61 129) "RSA_OAEP").
    rewrite repeat_length. lia.
  - split; [rewrite repeat_length; lia|].
    destruct (get_message_signature_size_ceiling EscrowApi Toy.world1 1%N
                (repeat x61 128) "RSA_OAEP") as (_ & _ & Hsmall).
    apply (Hsmall ltac:(rewrite repeat_length; lia) Toy.plain_pair);
      vm_compute; reflexivity.
Defined.

(** With a bare string as [passphrases] the assertion on [passphrases]
    fails: the request for a stored, unprotected key does not return. *)
Lemma request_decryption_authorization_classifies_counterexample :
  let run :=
    request_decryption_authorization EscrowApi [Toy.id1] "please"
      (PyStr "secret") Toy.world1 in
  run = (Raise (Exn AssertionError "'secret'"), Toy.world1)
  /\ ~ exists r w', run = (Return r, w').
Proof.
  split; [vm_compute; reflexivity|].
  intros (r & w' & H). vm_compute in H. discriminate H.
Qed.

(** The same request with the passphrase in a tuple, which the assertion
    lets through, stops on the concatenation [[None] + passphrases]. *)
Lemma request_decryption_authorization_tuple_passphrases :
  fst (request_decryption_authorization EscrowApi [Toy.id1] "please"
         (PyTuple ["secret"]) Toy.world1)
  = Raise (Exn TypeError (concat_type_error "tuple")).
Proof. vm_compute. reflexivity. Qed.

Lemma request_decryption_authorization_classifies_witness :
  [Toy.id1; Toy.id2; Toy.id3; Toy.id4] <> []
  /\ loading_contract_on Toy.deny4 (key_storage Toy.world1)
       [Toy.id1; Toy.id2; Toy.id3; Toy.id4] ["wrong"]
  /\ exists r,
       request_decryption_authorization
         (with_authorization_policy Toy.deny4 EscrowApi)
         [Toy.id1; Toy.id2; Toy.id3; Toy.id4] "please" (PyList ["wrong"])
         Toy.world1 = (Return r, Toy.world1)
       /\ keypair_statuses r
          = mkStatuses [Toy.id3] [Toy.id4] [Toy.id2] [Toy.id1].
Proof.
  split; [discriminate|]. split; [apply toy_loading_contract_on|].
  destruct (request_decryption_authorization_classifies Toy.deny4 Toy.world1
              [Toy.id1; Toy.id2; Toy.id3; Toy.id4] "please" ["wrong"])
    as (_ & (r & Hr & Hst) & _); [discriminate|apply toy_loading_contract_on|].
  exists r. split; [exact Hr|]. rewrite Hst. vm_compute. reflexivity.
Defined.

Lemma generate_free_keypair_for_least_provisioned_witness :
  ["RSA_OAEP"; "DSA_DSS"; "ECC_DSS"] <> []
  /\ generate_free_keypair_for_least_provisioned_key_algo 2
       default_key_generation_func ["RSA_OAEP"; "DSA_DSS"; "ECC_DSS"]
       Toy.world1 = (Return true, Toy.world2).
Proof.
  split; [discriminate|].
  destruct (generate_free_keypair_for_least_provisioned 2
              default_key_generation_func ["RSA_OAEP"; "DSA_DSS"; "ECC_DSS"]
              Toy.world1)
    as (algo & Hin & Hleast & _ & Hroom); [discriminate|].
  destruct Hin as [<-|[<-|[<-|[]]]].
  - destruct (Hleast "ECC_DSS") as [_ Htie]; [simpl; tauto|].
    specialize (Htie eq_refl). vm_compute in Htie. discriminate Htie.
  - destruct (Hleast "ECC_DSS") as [Hle _]; [simpl; tauto|].
    vm_compute in Hle. lia.
  - destruct Hroom as (_ & _ & Hdefault); [vm_compute; reflexivity|].
    apply (Hdefault (Keypair (repeat x2a 7) (x00 :: repeat x2b 7)) 8%nat).
    reflexivity.
Defined.

Lemma readonly_fetch_public_key_never_creates_witness :
  cached_keypairs (key_storage Toy.world1) !! (5%N, "RSA_OAEP") = None
  /\ snd (fetch_public_key ReadonlyEscrowApi 5%N "RSA_OAEP" false Toy.world1)
     = Toy.world1
  /\ raises (fst (fetch_public_key ReadonlyEscrowApi 5%N "RSA_OAEP" false
                    Toy.world1)) KeyDoesNotExist.
Proof.
  split; [vm_compute; reflexivity|].
  destruct (readonly_fetch_public_key_never_creates Toy.world1 5%N "RSA_OAEP"
              false) as (Hsame & Hraises).
  split; [exact Hsame|]. apply Hraises. vm_compute; reflexivity.
Defined.

Lemma base_class_never_reports_authorization_missing_witness :
  let r := mkAuthorizationResult "Decryption request denied" true
             (mkStatuses [Toy.id3] [] [Toy.id2] [Toy.id1]) in
  request_decryption_authorization EscrowApi [Toy.id1; Toy.id2; Toy.id3]
    "please" PyNone Toy.world1 = (Return r, Toy.world1)
  /\ authorization_missing (keypair_statuses r) = [].
Proof.
  intros r.
  assert (request_decryption_authorization EscrowApi
            [Toy.id1; Toy.id2; Toy.id3] "please" PyNone Toy.world1
          = (Return r, Toy.world1)) as Hrun by (vm_compute; reflexivity).
  split; [exact Hrun|].
  exact (base_class_never_reports_authorization_missing _ _ _ _ _ _ Hrun).
Defined.

Lemma request_decryption_authorization_partitions_witness :
  let ids := [Toy.id1; Toy.id4; Toy.id2; Toy.id1] in
  let st := mkStatuses [] [Toy.id4] [Toy.id2] [Toy.id1; Toy.id1] in
  let r := mkAuthorizationResult "Decryption request denied" true st in
  request_decryption_authorization
    (with_authorization_policy Toy.deny4 EscrowApi) ids "please"
    (PyTuple []) Toy.world1 = (Return r, Toy.world1)
  /\ Permutation (missing_private_key st ++ authorization_missing st
                  ++ missing_passphrase st ++ accepted st)%list ids
  /\ statuses_total st = length ids
  /\ (forall x, In x ids -> lists_containing x st = 1%nat)
  /\ (has_errors r = true <-> (length (accepted st) < length ids)%nat)
  /\ response_message r = (if has_errors r then "Decryption request denied"
                           else "Decryption request accepted").
Proof.
  intros ids st r.
  assert (request_decryption_authorization
            (with_authorization_policy Toy.deny4 EscrowApi) ids "please"
            (PyTuple []) Toy.world1 = (Return r, Toy.world1)) as Hrun
    by (vm_compute; reflexivity).
  split; [exact Hrun|].
  exact (request_decryption_authorization_partitions _ _ _ _ _ _ _ Hrun).
Defined.

(** With no identifier and a bare string as [passphrases], the exception is
    the [AssertionError] of the assertion on [passphrases], not
    [ValueError]. *)
Lemma request_decryption_authorization_empty_counterexample :
  let run :=
    request_decryption_authorization EscrowApi [] "please" (PyStr "secret")
      Toy.world1 in
  run = (Raise (Exn AssertionError "'secret'"), Toy.world1)
  /\ ~ raises (fst run) ValueError.
Proof.
  split; [vm_compute; reflexivity|].
  intros [msg H]. vm_compute in H. discriminate H.
Qed.

Lemma request_decryption_authorization_empty_witness :
  (forall s, PyTuple ["secret"] = PyStr s -> s = EmptyString)
  /\ request_decryption_authorization EscrowApi [] "please"
       (PyTuple ["secret"]) Toy.world1
     = (Raise (Exn ValueError
          "Keypair identifiers must not be empty, when requesting decryption authorization"),
        Toy.world1)
  /\ request_decryption_authorization EscrowApi [] "please" (PyStr "secret")
       Toy.world1
     = (Raise (Exn AssertionError (py_repr (PyStr "secret"))), Toy.world1).
Proof.
  destruct (request_decryption_authorization_empty EscrowApi "please"
              (PyTuple ["secret"]) Toy.world1) as (Hvalue & _).
  destruct (request_decryption_authorization_empty EscrowApi "please"
              (PyStr "secret") Toy.world1) as (_ & Hassert).
  split; [discriminate|]. split.
  - apply Hvalue. discriminate.
  - apply (Hassert "secret"); [reflexivity|discriminate].
Defined.

Lemma get_message_signature_creates_missing_keypair_witness :
  (length [x61] <= 128)%nat
  /\ cached_keypairs (key_storage Toy.world1) !! (9%N, "DSA_DSS") = None
  /\ get_message_signature EscrowApi 9%N [x61] "DSA_DSS" Toy.world1
     = (Return ([x61], 2%nat),
        mkWorld (key_storage (world_after_attach Toy.world1 9%N "DSA_DSS"
                                Toy.plain_pair [])) 8%nat)
  /\ get_message_signature EscrowApi 9%N [x61] "ECC_DSS" Toy.world1
     = (Return ([x61], 7%nat),
        mkWorld (key_storage (world_after_generate Toy.world1 9%N "ECC_DSS"
                                (Keypair (repeat x2a 7) (x00 :: repeat x2b 7))
                                8%nat)) 9%nat).
Proof.
  split; [simpl; lia|]. split; [vm_compute; reflexivity|].
  destruct (get_message_signature_creates_missing_keypair Toy.world1 9%N
              [x61] "DSA_DSS") as (Hattach & _);
    [simpl; lia|vm_compute; reflexivity|].
  destruct (get_message_signature_creates_missing_keypair Toy.world1 9%N
              [x61] "ECC_DSS") as (_ & Hgenerate);
    [simpl; lia|vm_compute; reflexivity|].
  split.
  - apply (Hattach Toy.plain_pair [] 2%nat); vm_compute; reflexivity.
  - apply (Hgenerate (Keypair (repeat x2a 7) (x00 :: repeat x2b 7)) 8%nat
             7%nat); vm_compute; reflexivity.
Defined.

End Witnesses.

(** * Further properties of the module *)

Notation "x <- m ;; k" := (bind m (fun x => k))
  (at level 100, m at next level, right associativity).
Notation "m >> k" := (bind m (fun _ => k))
  (at level 100, right associativity).

Section GeneratorProofs.
Context {CP : CryptoPrimitives}.

Implicit Types (w : World) (algo : string) (key_algos : list string).

(** What one call does, in terms of the algo that [min] selects. *)
Lemma least_provisioned_run (max_free_keys_per_algo : Z)
    (key_generation_func : string -> M keypair) key_algos w :
  key_algos <> [] ->
  exists algo,
    In algo key_algos
    /\ (forall a, In a key_algos -> (count_in w algo <= count_in w a)%nat)
    /\ generate_free_keypair_for_least_provisioned_key_algo
         max_free_keys_per_algo key_generation_func key_algos w
       = if (max_free_keys_per_algo <=? Z.of_nat (count_in w algo))%Z
         then (Return false, w)
         else (kp <- key_generation_func algo ;;
               add_free_keypair algo (public_key kp) (private_key kp) >>
               ret true) w.
Proof.
  intros Hne.
  unfold generate_free_keypair_for_least_provisioned_key_algo.
  destruct key_algos as [|a0 l] eqn:Hl; [done|]. rewrite <- Hl.
  assert (negb (length key_algos =? 0)%nat = true) as -> by by subst.
  unfold bind at 1, assert_, ret at 1. unfold bind at 1.
  rewrite free_keys_counts_of_run.
  destruct (py_min _) as [[count algo]|] eqn:Hmin.
  2:{ by subst. }
  apply py_min_least in Hmin as [Hin Hleast].
  apply in_map_iff in Hin as (algo' & [= Hcount <-] & Hin). subst count.
  exists algo'. split; [done|]. split.
  - intros a Ha.
    assert (tuple_le (count_in w algo', algo') (count_in w a, a)) as Hle.
    { apply Hleast, in_map_iff. by exists a. }
    destruct Hle as [Hlt|[Heq _]]; simpl in *; lia.
  - unfold count_in. by destruct (_ <=? _)%Z.
Qed.

(** X1. For a non-empty [key_algos] the call returns [False] exactly when
    every algo of [key_algos] already has [max_free_keys_per_algo] free
    keypairs or more, whatever the generation function is; it then leaves
    the world as it is. *)
Theorem generator_returns_false_iff_pools_full (max_free_keys_per_algo : Z)
    (key_generation_func : string -> M keypair) key_algos w :
  key_algos <> [] ->
  let run := generate_free_keypair_for_least_provisioned_key_algo
               max_free_keys_per_algo key_generation_func key_algos w in
  (fst run = Return false
   <-> forall a, In a key_algos ->
         (max_free_keys_per_algo <= Z.of_nat (count_in w a))%Z)
  /\ (fst run = Return false -> snd run = w).
Proof.
  intros Hne run.
  destruct (least_provisioned_run max_free_keys_per_algo key_generation_func
              key_algos w Hne) as (algo & Hin & Hleast & Hrun).
  fold run in Hrun.
  destruct (Z.leb_spec max_free_keys_per_algo (Z.of_nat (count_in w algo)))
    as [Hfull|Hroom].
  - rewrite Hrun. simpl. split; [|done]. split; [|done].
    intros _ a Ha. specialize (Hleast a Ha). lia.
  - assert (fst run <> Return false) as Hnot.
    { rewrite Hrun. unfold bind at 1.
      destruct (key_generation_func algo w) as [[kp|e] w1]; [|done].
      unfold bind, add_free_keypair, ret. simpl. discriminate. }
    split; [|done]. split; [done|].
    intros Hall. specialize (Hall algo Hin). lia.
Qed.

Section Task.
Context {Duration : Type}.
Implicit Types (slept : list Duration).

(** The task on full pools. *)
Lemma task_when_pools_full (max_free_keys_per_algo : Z)
    (sleep_on_overflow_s : Duration)
    (key_generation_func : string -> M keypair) key_algos w slept :
  key_algos <> [] ->
  (forall a, In a key_algos ->
     (max_free_keys_per_algo <= Z.of_nat (count_in w a))%Z) ->
  free_keypair_generator_task max_free_keys_per_algo sleep_on_overflow_s
    key_generation_func key_algos (w, slept)
  = (Return false, (w, (slept ++ [sleep_on_overflow_s])%list)).
Proof.
  intros Hne Hall.
  destruct (least_provisioned_run max_free_keys_per_algo key_generation_func
              key_algos w Hne) as (algo & Hin & _ & Hrun).
  unfold free_keypair_generator_task. cbn [fst snd]. rewrite Hrun.
  specialize (Hall algo Hin).
  by destruct (Z.leb_spec max_free_keys_per_algo (Z.of_nat (count_in w algo)));
    [|lia].
Qed.

(** X2. The periodic task sleeps, once and for [sleep_on_overflow_s],
    exactly when every pool of [key_algos] is full; it then returns [False]
    and changes nothing else.  In every other case (a keypair generated, or
    an exception) it does not sleep. *)
Theorem task_sleeps_iff_pools_full (max_free_keys_per_algo : Z)
    (sleep_on_overflow_s : Duration)
    (key_generation_func : string -> M keypair) key_algos w slept :
  key_algos <> [] ->
  let out := free_keypair_generator_task max_free_keys_per_algo
               sleep_on_overflow_s key_generation_func key_algos (w, slept) in
  ((forall a, In a key_algos ->
       (max_free_keys_per_algo <= Z.of_nat (count_in w a))%Z) ->
   out = (Return false, (w, (slept ++ [sleep_on_overflow_s])%list)))
  /\ ((exists a, In a key_algos
                 /\ (Z.of_nat (count_in w a) < max_free_keys_per_algo)%Z) ->
      fst out <> Return false /\ snd (snd out) = slept).
Proof.
  intros Hne out. split; [by apply task_when_pools_full|].
  intros (a & Ha & Hlt).
  destruct (least_provisioned_run max_free_keys_per_algo key_generation_func
              key_algos w Hne) as (algo & Hin & Hleast & Hrun).
  specialize (Hleast a Ha).
  unfold out, free_keypair_generator_task. cbn [fst snd]. rewrite Hrun.
  destruct (Z.leb_spec max_free_keys_per_algo (Z.of_nat (count_in w algo)));
    [lia|].
  unfold bind, add_free_keypair, ret.
  destruct (key_generation_func algo w) as [[kp|e] w1]; simpl;
    (split; [discriminate|done]).
Qed.

(** *** Filling the pools *)

Lemma deficit_positive (max_free_keys_per_algo : Z) ks key_algos :
  (0 < deficit max_free_keys_per_algo ks key_algos)%nat ->
  exists a, In a key_algos
            /\ (Z.of_nat (ks_get_free_keypairs_count ks a)
                < max_free_keys_per_algo)%Z.
Proof.
  unfold deficit. induction key_algos as [|a l IH]; simpl; [lia|].
  intros Hpos.
  destruct (Z.ltb_spec (Z.of_nat (ks_get_free_keypairs_count ks a))
              max_free_keys_per_algo) as [Hlt|Hge].
  - exists a. by split; [left|].
  - destruct IH as (b & Hb & Hlt); [lia|]. exists b. by split; [right|].
Qed.

Lemma deficit_zero (max_free_keys_per_algo : Z) ks key_algos :
  deficit max_free_keys_per_algo ks key_algos = 0%nat ->
  forall a, In a key_algos ->
    (max_free_keys_per_algo <= Z.of_nat (ks_get_free_keypairs_count ks a))%Z.
Proof.
  unfold deficit. induction key_algos as [|b l IH]; simpl; [done|].
  intros Hsum a [<-|Ha]; [lia|]. apply IH; [lia|done].
Qed.

Lemma deficit_add_elsewhere (max_free_keys_per_algo : Z) ks key_algos m pub priv :
  ~ In m key_algos ->
  deficit max_free_keys_per_algo (ks_add_free_keypair ks m pub priv) key_algos
  = deficit max_free_keys_per_algo ks key_algos.
Proof.
  unfold deficit. induction key_algos as [|a l IH]; simpl; [done|].
  intros Hnot. rewrite count_after_add_free_keypair.
  rewrite decide_False by (intros ->; apply Hnot; by left).
  rewrite IH; [done|]. intros Hin. apply Hnot. by right.
Qed.

Lemma deficit_add (max_free_keys_per_algo : Z) ks key_algos m pub priv :
  List.NoDup key_algos ->
  In m key_algos ->
  (Z.of_nat (ks_get_free_keypairs_count ks m) < max_free_keys_per_algo)%Z ->
  S (deficit max_free_keys_per_algo (ks_add_free_keypair ks m pub priv)
       key_algos)
  = deficit max_free_keys_per_algo ks key_algos.
Proof.
  intros Hnodup. induction Hnodup as [|a l Hnot Hnodup IH]; [done|].
  intros [->|Hin] Hlt.
  - change (deficit ?x ?k (m :: l))
      with (Z.to_nat (x - Z.of_nat (ks_get_free_keypairs_count k m))
            + deficit x k l)%nat.
    rewrite deficit_add_elsewhere by done.
    rewrite count_after_add_free_keypair, decide_True by done. lia.
  - change (deficit ?x ?k (a :: l))
      with (Z.to_nat (x - Z.of_nat (ks_get_free_keypairs_count k a))
            + deficit x k l)%nat.
    rewrite count_after_add_free_keypair.
    rewrite decide_False by (intros ->; done).
    rewrite <- (IH Hin Hlt). lia.
Qed.

Lemma topped_up_after_add (max_free_keys_per_algo : Z) ks m pub priv a :
  (Z.of_nat (ks_get_free_keypairs_count ks m) < max_free_keys_per_algo)%Z ->
  topped_up max_free_keys_per_algo (ks_add_free_keypair ks m pub priv) a
  = topped_up max_free_keys_per_algo ks a.
Proof.
  intros Hlt. unfold topped_up. rewrite count_after_add_free_keypair.
  destruct (decide (a = m)) as [->|]; lia.
Qed.

(** One call with a pool below the maximum, the default generation function
    and a generation that returns. *)
Lemma task_generates (max_free_keys_per_algo : Z)
    (sleep_on_overflow_s : Duration) key_algos w slept :
  key_algos <> [] ->
  generation_never_fails ->
  (0 < deficit max_free_keys_per_algo (key_storage w) key_algos)%nat ->
  exists m kp g,
    In m key_algos
    /\ (Z.of_nat (count_in w m) < max_free_keys_per_algo)%Z
    /\ free_keypair_generator_task max_free_keys_per_algo sleep_on_overflow_s
         default_key_generation_func key_algos (w, slept)
       = (Return true,
          (mkWorld (ks_add_free_keypair (key_storage w) m (public_key kp)
                      (private_key kp)) g, slept)).
Proof.
  intros Hne Hgen Hpos.
  destruct (deficit_positive _ _ _ Hpos) as (a & Ha & Hlt).
  destruct (least_provisioned_run max_free_keys_per_algo
              default_key_generation_func key_algos w Hne)
    as (m & Hm & Hleast & Hrun).
  specialize (Hleast a Ha). fold (count_in w a) in Hlt.
  destruct (Hgen m (entropy w)) as (kp & g & Hkp).
  exists m, kp, g. split; [done|]. split; [lia|].
  unfold free_keypair_generator_task. cbn [fst snd]. rewrite Hrun.
  destruct (Z.leb_spec max_free_keys_per_algo (Z.of_nat (count_in w m)));
    [lia|].
  unfold bind at 1, default_key_generation_func, do_generate_keypair.
  by rewrite Hkp.
Qed.

(** X3. Starting from any world, with distinct [key_algos], the default
    generation function and a key generation that always returns, as many
    calls of the periodic task as free keypairs are lacking all return
    [True] without sleeping; after them every pool of [key_algos] holds the
    larger of its former count and [max_free_keys_per_algo], the other pools
    and the bound keypairs are as before, and the next call returns [False]
    and sleeps. *)
Theorem task_fills_pools (max_free_keys_per_algo : Z)
    (sleep_on_overflow_s : Duration) key_algos w slept :
  key_algos <> [] ->
  List.NoDup key_algos ->
  generation_never_fails ->
  let n := deficit max_free_keys_per_algo (key_storage w) key_algos in
  exists w',
    run_task_times n max_free_keys_per_algo sleep_on_overflow_s
      default_key_generation_func key_algos (w, slept)
    = (Return (repeat true n), (w', slept))
    /\ (forall a, In a key_algos ->
          count_in w' a = topped_up max_free_keys_per_algo (key_storage w) a)
    /\ (forall a, ~ In a key_algos -> count_in w' a = count_in w a)
    /\ cached_keypairs (key_storage w') = cached_keypairs (key_storage w)
    /\ free_keypair_generator_task max_free_keys_per_algo sleep_on_overflow_s
         default_key_generation_func key_algos (w', slept)
       = (Return false, (w', (slept ++ [sleep_on_overflow_s])%list)).
Proof.
  intros Hne Hnodup Hgen n.
  remember n as d eqn:Hd. unfold n in Hd. clear n. symmetry in Hd.
  revert w Hd. induction d as [|d IH]; intros w Hd.
  - exists w. split; [done|].
    pose proof (deficit_zero _ _ _ Hd) as Hfull.
    split; [|split; [done|split; [done|]]].
    + intros a Ha. specialize (Hfull a Ha). unfold topped_up, count_in. lia.
    + by apply task_when_pools_full.
  - destruct (task_generates max_free_keys_per_algo sleep_on_overflow_s
                key_algos w slept Hne Hgen) as (m & kp & g & Hm & Hlt & Htask);
      [lia|].
    set (w1 := mkWorld (ks_add_free_keypair (key_storage w) m (public_key kp)
                          (private_key kp)) g) in *.
    assert (deficit max_free_keys_per_algo (key_storage w1) key_algos = d)
      as Hd1.
    { pose proof (deficit_add max_free_keys_per_algo (key_storage w) key_algos
                    m (public_key kp) (private_key kp) Hnodup Hm Hlt).
      simpl. lia. }
    destruct (IH w1 Hd1) as (w' & Hrun & Hin & Hout & Hcached & Hnext).
    exists w'. split; [|split; [|split; [|split; [|done]]]].
    + cbn [run_task_times repeat]. rewrite Htask, Hrun. done.
    + intros a Ha. rewrite (Hin a Ha). by apply topped_up_after_add.
    + intros a Ha. rewrite (Hout a Ha). unfold count_in, w1. simpl.
      rewrite count_after_add_free_keypair.
      by rewrite decide_False by (intros ->; done).
    + by rewrite Hcached.
Qed.

End Task.

End GeneratorProofs.

Section ApiProofs.
Context {CP : CryptoPrimitives}.

Implicit Types (w : World) (uid : UUID) (algo : string) (kp : keypair).

(** ** [generate_keypair_for_storage] *)

(** X4. [generate_keypair_for_storage] stores the keypair it returns: under
    the uid given when there is one, under a uid drawn with
    [generate_uuid0] before the key generation when there is none.  Provided
    no keypair was stored there, the public and the private key read back
    are those of the returned keypair, and the free pools and the keypairs
    stored elsewhere are as before. *)
Theorem generate_keypair_for_storage_round_trip w algo
    (keychain_uid : option UUID) (passphrase : option string) uid g1 kp g2 :
  match keychain_uid with
  | Some u => uid = u /\ g1 = entropy w
  | None => generate_uuid0 (entropy w) = (uid, g1)
  end ->
  generate_keypair algo passphrase g1 = (Return kp, g2) ->
  cached_keypairs (key_storage w) !! (uid, algo) = None ->
  let w' := world_after_generate w uid algo kp g2 in
  generate_keypair_for_storage algo keychain_uid passphrase w = (Return kp, w')
  /\ get_public_key uid algo w' = (Return (public_key kp), w')
  /\ get_private_key uid algo w' = (Return (private_key kp), w')
  /\ free_keypairs (key_storage w') = free_keypairs (key_storage w)
  /\ (forall key, key <> (uid, algo) ->
        cached_keypairs (key_storage w') !! key
        = cached_keypairs (key_storage w) !! key).
Proof.
  intros Huid Hgen Habs w'. split; [|split; [|split; [|split; [done|]]]].
  - unfold generate_keypair_for_storage. destruct w as [ks g0].
    simpl in *. unfold bind at 1.
    assert ((match keychain_uid with
             | Some u => ret u
             | None => do_generate_uuid0
             end) (mkWorld ks g0) = (Return uid, mkWorld ks g1)) as ->.
    { destruct keychain_uid as [u|].
      - by destruct Huid as [-> ->].
      - unfold do_generate_uuid0. simpl. by rewrite Huid. }
    unfold bind at 1, do_generate_keypair. simpl. rewrite Hgen.
    unfold bind, set_keys, ks_set_keys, ret. simpl. rewrite Habs.
    by destruct kp.
  - apply get_public_key_stored, stored_after_generate.
  - apply get_private_key_stored, stored_after_generate.
  - intros key Hkey. simpl. by rewrite lookup_insert_ne.
Qed.

(** X5. When a keypair is already stored for the uid and algo,
    [generate_keypair_for_storage] raises [KeyAlreadyExists] and the key
    storage is as before: the stored keypair is not replaced, and the keypair
    that was generated before the write is dropped (its entropy is spent). *)
Theorem generate_keypair_for_storage_never_overwrites w algo uid
    (passphrase : option string) old kp g :
  cached_keypairs (key_storage w) !! (uid, algo) = Some old ->
  generate_keypair algo passphrase (entropy w) = (Return kp, g) ->
  exists msg,
    generate_keypair_for_storage algo (Some uid) passphrase w
    = (Raise (Exn KeyAlreadyExists msg), mkWorld (key_storage w) g).
Proof.
  intros Hold Hgen. unfold generate_keypair_for_storage.
  unfold bind at 1, ret at 1. unfold bind at 1, do_generate_keypair.
  rewrite Hgen. unfold bind, set_keys, ks_set_keys. simpl. rewrite Hold.
  by eexists.
Qed.

(** ** Keys handed out by [EscrowApi] *)

Lemma ensure_keypair_exists_other_keys w uid algo key :
  key <> (uid, algo) ->
  cached_keypairs (key_storage (snd (EscrowApi_ensure_keypair_exists uid algo w)))
    !! key
  = cached_keypairs (key_storage w) !! key.
Proof.
  intros Hkey.
  destruct (cached_keypairs (key_storage w) !! (uid, algo)) as [kp|] eqn:Hkp.
  { by rewrite (ensure_keypair_exists_present _ _ _ _ Hkp). }
  destruct (default [] (free_keypairs (key_storage w) !! algo))
    as [|kp pool] eqn:Hpool.
  - destruct (generate_keypair algo None (entropy w)) as [[kp|e] g] eqn:Hgen.
    + rewrite (ensure_keypair_exists_generates _ _ _ _ _ Hkp Hpool Hgen).
      simpl. by rewrite lookup_insert_ne.
    + by rewrite (ensure_keypair_exists_generation_fails _ _ _ _ _ Hkp Hpool
                    Hgen).
  - rewrite (ensure_keypair_exists_attaches _ _ _ _ _ Hkp Hpool).
    simpl. by rewrite lookup_insert_ne.
Qed.

Lemma fetch_public_key_world (self : EscrowApiClass) w uid algo
    (must_exist : bool) :
  snd (fetch_public_key self uid algo must_exist w)
  = if must_exist then w else snd (_ensure_keypair_exists self uid algo w).
Proof.
  unfold fetch_public_key, bind. destruct must_exist; simpl; [done|].
  by destruct (_ensure_keypair_exists self uid algo w) as [[[]|e] w1].
Qed.

Lemma get_message_signature_storage (self : EscrowApiClass) w uid
    (message : bytes) algo :
  key_storage (snd (get_message_signature self uid message algo w))
  = if (MAX_PAYLOAD_LENGTH_FOR_SIGNATURE <? length message)%nat
    then key_storage w
    else key_storage (snd (_ensure_keypair_exists self uid algo w)).
Proof.
  unfold get_message_signature.
  destruct (MAX_PAYLOAD_LENGTH_FOR_SIGNATURE <? length message)%nat; [done|].
  unfold bind at 1.
  destruct (_ensure_keypair_exists self uid algo w) as [[[]|e] w1]; [|done].
  unfold bind at 1, get_private_key.
  destruct (ks_get_private_key _ _ _) as [pem|e]; [|done].
  unfold bind, lift.
  destruct (load_asymmetric_key_from_pem_bytestring _ _ _) as [k|e]; [|done].
  unfold do_sign_message. by destruct (sign_message _ _ _ _).
Qed.

(** X6. [fetch_public_key] and [get_message_signature] of [EscrowApi], for
    a uid and algo, leave the keypairs stored under every other uid or algo
    as they are; and when a keypair is already stored for that uid and algo
    they leave the whole key storage as it is: a stored keypair is never
    replaced and no free keypair is consumed. *)
Theorem escrow_api_keeps_stored_keypairs w uid algo (must_exist : bool)
    (message : bytes) (key : UUID * string) :
  let w1 := snd (fetch_public_key EscrowApi uid algo must_exist w) in
  let w2 := snd (get_message_signature EscrowApi uid message algo w) in
  (key <> (uid, algo) ->
   cached_keypairs (key_storage w1) !! key
   = cached_keypairs (key_storage w) !! key
   /\ cached_keypairs (key_storage w2) !! key
      = cached_keypairs (key_storage w) !! key)
  /\ (forall kp,
      cached_keypairs (key_storage w) !! (uid, algo) = Some kp ->
      key_storage w1 = key_storage w /\ key_storage w2 = key_storage w).
Proof.
  intros w1 w2. unfold w1, w2.
  rewrite fetch_public_key_world, get_message_signature_storage.
  cbn [_ensure_keypair_exists EscrowApi]. split.
  - intros Hkey.
    pose proof (ensure_keypair_exists_other_keys w uid algo key Hkey).
    split; [by destruct must_exist|by destruct (_ <? _)%nat].
  - intros kp Hkp. rewrite (ensure_keypair_exists_present _ _ _ _ Hkp).
    split; [by destruct must_exist|by destruct (_ <? _)%nat].
Qed.

Lemma get_public_key_inv w uid algo pub w' :
  get_public_key uid algo w = (Return pub, w') ->
  w' = w /\ exists kp, cached_keypairs (key_storage w) !! (uid, algo) = Some kp
                       /\ public_key kp = pub.
Proof.
  unfold get_public_key, ks_get_public_key.
  destruct (cached_keypairs (key_storage w) !! (uid, algo)) as [kp|];
    [|done].
  intros [= <- <-]. eauto.
Qed.

Lemma fetch_public_key_inv (self : EscrowApiClass) w uid algo
    (must_exist : bool) pub w' :
  fetch_public_key self uid algo must_exist w = (Return pub, w') ->
  exists kp, cached_keypairs (key_storage w') !! (uid, algo) = Some kp
             /\ public_key kp = pub.
Proof.
  unfold fetch_public_key, bind.
  destruct ((if negb must_exist then _ensure_keypair_exists self uid algo
             else ret tt) w) as [[[]|e] w1]; [|done].
  intros [-> Hkp]%get_public_key_inv. exact Hkp.
Qed.

(** X7. Once [fetch_public_key] of [EscrowApi] has returned a public key for
    a uid and algo, every later [fetch_public_key] for them, with either
    value of [must_exist] and with [EscrowApi] or [ReadonlyEscrowApi],
    returns the same key and changes nothing. *)
Theorem fetch_public_key_is_stable w uid algo (must_exist : bool) pub w' :
  fetch_public_key EscrowApi uid algo must_exist w = (Return pub, w') ->
  forall again : bool,
    fetch_public_key EscrowApi uid algo again w' = (Return pub, w')
    /\ fetch_public_key ReadonlyEscrowApi uid algo again w' = (Return pub, w').
Proof.
  intros (kp & Hkp & <-)%fetch_public_key_inv again.
  pose proof (get_public_key_stored _ _ _ _ Hkp) as Hget.
  unfold fetch_public_key, bind. destruct again; simpl.
  - by rewrite Hget.
  - rewrite (ensure_keypair_exists_present _ _ _ _ Hkp).
    unfold ReadonlyEscrowApi_ensure_keypair_exists, try_except_else.
    by rewrite !Hget.
Qed.

(** X8. Whenever [get_message_signature] of [EscrowApi] returns a
    signature, a keypair is stored for the uid and algo afterwards, the
    signature was made by [sign_message] on the message with the key loaded,
    without passphrase, from the private part of that keypair, and
    [fetch_public_key] with [must_exist=True] then returns the public part
    of the same keypair. *)
Theorem signature_key_is_the_stored_keypair w uid (message : bytes) algo
    (signature : Signature) w' :
  get_message_signature EscrowApi uid message algo w = (Return signature, w') ->
  exists kp k g,
    cached_keypairs (key_storage w') !! (uid, algo) = Some kp
    /\ load_asymmetric_key_from_pem_bytestring (private_key kp) algo None
       = Return k
    /\ sign_message message algo k g = (Return signature, entropy w')
    /\ fetch_public_key EscrowApi uid algo true w'
       = (Return (public_key kp), w').
Proof.
  unfold get_message_signature.
  destruct (MAX_PAYLOAD_LENGTH_FOR_SIGNATURE <? length message)%nat; [done|].
  unfold bind at 1.
  destruct (_ensure_keypair_exists EscrowApi uid algo w) as [[[]|e] w1];
    [|done].
  unfold bind at 1, get_private_key, ks_get_private_key.
  destruct (cached_keypairs (key_storage w1) !! (uid, algo)) as [kp|] eqn:Hkp;
    [|done].
  unfold bind, lift.
  destruct (load_asymmetric_key_from_pem_bytestring _ _ _) as [k|e] eqn:Hk;
    [|done].
  unfold do_sign_message.
  destruct (sign_message message algo k (entropy w1)) as [r g] eqn:Hsign.
  intros [= -> <-]. exists kp, k, (entropy w1). simpl.
  split; [done|]. split; [done|]. split; [done|].
  unfold fetch_public_key, bind, get_public_key, ks_get_public_key. simpl.
  by rewrite Hkp.
Qed.

(** ** [ReadonlyEscrowApi] beyond [fetch_public_key] *)

(** X9. [get_message_signature] of [ReadonlyEscrowApi] never changes the key
    storage; for a message of at most 128 bytes and no keypair stored for
    the uid and algo it raises [KeyDoesNotExist] with the message
    "Keypair <uid>/<algo> not found in escrow api" and leaves the world as
    it is. *)
Theorem readonly_get_message_signature_never_creates w uid (message : bytes)
    algo :
  key_storage (snd (get_message_signature ReadonlyEscrowApi uid message algo w))
  = key_storage w
  /\ ((length message <= 128)%nat ->
      cached_keypairs (key_storage w) !! (uid, algo) = None ->
      get_message_signature ReadonlyEscrowApi uid message algo w
      = (Raise (Exn KeyDoesNotExist
                  ("Keypair " ++ str_of_uuid uid ++ "/" ++ algo
                   ++ " not found in escrow api")), w)).
Proof.
  split.
  - rewrite get_message_signature_storage.
    destruct (_ <? _)%nat; [done|].
    cbn [_ensure_keypair_exists ReadonlyEscrowApi].
    by rewrite readonly_ensure_keypair_exists_world.
  - intros Hlen Habs. rewrite get_message_signature_small by done.
    unfold bind at 1. cbn [_ensure_keypair_exists ReadonlyEscrowApi].
    unfold ReadonlyEscrowApi_ensure_keypair_exists, try_except_else.
    by rewrite (get_public_key_absent _ _ _ Habs).
Qed.

(** X10. When a keypair is stored for the uid and algo, [ReadonlyEscrowApi]
    and [EscrowApi] agree: [fetch_public_key], for either value of
    [must_exist], and [get_message_signature] give the same result and the
    same world. *)
Theorem readonly_agrees_when_keypair_stored w uid algo kp (must_exist : bool)
    (message : bytes) :
  cached_keypairs (key_storage w) !! (uid, algo) = Some kp ->
  fetch_public_key ReadonlyEscrowApi uid algo must_exist w
  = fetch_public_key EscrowApi uid algo must_exist w
  /\ get_message_signature ReadonlyEscrowApi uid message algo w
     = get_message_signature EscrowApi uid message algo w.
Proof.
  intros Hkp.
  assert (ReadonlyEscrowApi_ensure_keypair_exists uid algo w
          = EscrowApi_ensure_keypair_exists uid algo w) as Hens.
  { rewrite (ensure_keypair_exists_present _ _ _ _ Hkp).
    unfold ReadonlyEscrowApi_ensure_keypair_exists, try_except_else.
    by rewrite (get_public_key_stored _ _ _ _ Hkp). }
  split.
  - unfold fetch_public_key, bind. destruct must_exist; simpl; [done|].
    by rewrite Hens.
  - unfold get_message_signature.
    destruct (_ <? _)%nat; [done|]. unfold bind at 1 3.
    cbn [_ensure_keypair_exists ReadonlyEscrowApi EscrowApi].
    by rewrite Hens.
Qed.

(** ** [decrypt_with_private_key] beyond the passphrase loop *)

(** X11. [decrypt_with_private_key] never changes the world, whatever it is
    given and whether it returns or raises: unlike [fetch_public_key] it
    creates no key.  An [encryption_algo] of ASCII characters whose upper
    case is not RSA_OAEP stops on the first assertion, whatever is stored;
    an [encryption_algo] whose upper case is RSA_OAEP, with [passphrases]
    passing the assertion and no keypair stored under the uid and the algo
    as it was given (not in upper case), raises [KeyDoesNotExist]. *)
Theorem decrypt_with_private_key_only_reads (self : EscrowApiClass) w uid
    (encryption_algo : string) (cipherdict : Cipherdict)
    (passphrases : py_passphrases) :
  let run :=
    decrypt_with_private_key self uid encryption_algo cipherdict passphrases w
  in
  snd run = w
  /\ (ascii_only encryption_algo = true ->
      upper encryption_algo <> "RSA_OAEP" -> raises (fst run) AssertionError)
  /\ (upper encryption_algo = "RSA_OAEP" ->
      (forall s, passphrases = PyStr s -> s = EmptyString) ->
      cached_keypairs (key_storage w) !! (uid, encryption_algo) = None ->
      raises (fst run) KeyDoesNotExist).
Proof.
  intros run. unfold run, decrypt_with_private_key, bind, assert_, ret,
    raise, lift, get_private_key, ks_get_private_key.
  destruct (String.eqb_spec (upper encryption_algo) "RSA_OAEP") as [Hup|Hup].
  2:{ split; [done|]. split; [intros _ _; by eexists|done]. }
  destruct (isinstance_tuple_or_list (or_empty_list passphrases)) eqn:Hinst.
  2:{ split; [done|]. split; [done|]. intros _ Hstr _.
      destruct passphrases as [|l|l|s]; try (by destruct l); try done.
      by rewrite (Hstr s eq_refl) in Hinst. }
  destruct (cached_keypairs (key_storage w) !! (uid, encryption_algo))
    as [kp|].
  - destruct (_decrypt_private_key_pem_with_passphrases _ _ _); simpl;
      (split; [done|]); split; done.
  - simpl. split; [done|]. split; [done|]. intros _ _ _. by eexists.
Qed.

Lemma try_passphrases_app pem algo (c1 c2 : list (option string)) :
  try_passphrases pem algo (c1 ++ c2)%list
  = match try_passphrases pem algo c1 with
    | Return None => try_passphrases pem algo c2
    | r => r
    end.
Proof.
  induction c1 as [|c c1 IH]; simpl; [done|].
  destruct (load_asymmetric_key_from_pem_bytestring pem algo c) as [k|e];
    [done|].
  by destruct (decide _).
Qed.

(** X12. Supplying more passphrases never undoes a success: when
    [_decrypt_private_key_pem_with_passphrases] returns a key for a list of
    passphrases, it returns the same key for that list followed by any
    others, and [decrypt_with_private_key] then gives the same result for
    both lists. *)
Theorem more_passphrases_keep_the_key (self : EscrowApiClass) w uid
    (cipherdict : Cipherdict) kp (supplied extra : list string) (k : Key) :
  cached_keypairs (key_storage w) !! (uid, "RSA_OAEP") = Some kp ->
  _decrypt_private_key_pem_with_passphrases (private_key kp) "RSA_OAEP"
    (PyList supplied) = Return k ->
  _decrypt_private_key_pem_with_passphrases (private_key kp) "RSA_OAEP"
    (PyList (supplied ++ extra)%list) = Return k
  /\ decrypt_with_private_key self uid "RSA_OAEP" cipherdict
       (PyList (supplied ++ extra)%list) w
     = (_decrypt_via_rsa_oaep cipherdict k, w)
  /\ decrypt_with_private_key self uid "RSA_OAEP" cipherdict
       (PyList supplied) w
     = (_decrypt_via_rsa_oaep cipherdict k, w).
Proof.
  intros Hkp Hk.
  assert (_decrypt_private_key_pem_with_passphrases (private_key kp)
            "RSA_OAEP" (PyList (supplied ++ extra)%list) = Return k) as Hk'.
  { revert Hk. unfold _decrypt_private_key_pem_with_passphrases.
    simpl list_None_plus. cbv iota.
    rewrite map_app, app_comm_cons, try_passphrases_app.
    destruct (try_passphrases _ _ (None :: map Some supplied))
      as [[k0|]|e]; done. }
  split; [done|].
  rewrite !(decrypt_with_private_key_stored _ _ _ _ _ _ Hkp).
  by rewrite Hk, Hk'.
Qed.

(** X16. The public key that [fetch_public_key] of [EscrowApi] returns for
    RSA_OAEP and the private key that [decrypt_with_private_key] then uses
    for the same uid are the two parts of one stored keypair: when the
    private part loads without passphrase, decryption is RSA-OAEP with that
    key, whatever passphrases are supplied. *)
Theorem decryption_key_is_the_fetched_keypair w uid (must_exist : bool) pub w' :
  fetch_public_key EscrowApi uid "RSA_OAEP" must_exist w = (Return pub, w') ->
  exists kp,
    public_key kp = pub
    /\ cached_keypairs (key_storage w') !! (uid, "RSA_OAEP") = Some kp
    /\ forall (self : EscrowApiClass) (cipherdict : Cipherdict)
             (supplied : list string) (k : Key),
        load_asymmetric_key_from_pem_bytestring (private_key kp) "RSA_OAEP"
          None = Return k ->
        decrypt_with_private_key self uid "RSA_OAEP" cipherdict
          (PyList supplied) w'
        = (_decrypt_via_rsa_oaep cipherdict k, w').
Proof.
  intros (kp & Hkp & Hpub)%fetch_public_key_inv.
  exists kp. split; [done|]. split; [done|].
  intros self cipherdict supplied k Hk.
  rewrite (decrypt_with_private_key_stored _ _ _ _ _ _ Hkp).
  by rewrite (decrypt_private_key_pem_first _ _ supplied [] None
                (map Some supplied) k eq_refl (List.Forall_nil _) Hk).
Qed.

(** ** [request_decryption_authorization] as a whole *)

Lemma request_decryption_authorization_policy_nonempty
    (denied : UUID -> string -> option string) (base : EscrowApiClass)
    (ids : list keypair_identifier) (request_message : string)
    (passphrases : py_passphrases) w :
  ids <> [] ->
  let passphrases' := or_empty_list passphrases in
  let ks := key_storage w in
  request_decryption_authorization (with_authorization_policy denied base) ids
    request_message passphrases w
  = (if isinstance_tuple_or_list passphrases' then
       match first_error denied ks passphrases' ids with
       | Some e => Raise e
       | None =>
           let st := extend_statuses denied ks passphrases'
                       (mkStatuses [] [] [] []) ids in
           let has_errors := (length (accepted st) <? length ids)%nat in
           Return (mkAuthorizationResult
                     (if has_errors then "Decryption request denied"
                      else "Decryption request accepted")
                     has_errors st)
       end
     else Raise (Exn AssertionError (py_repr passphrases')), w).
Proof.
  intros Hne. destruct ids as [|x ids]; [done|].
  apply request_decryption_authorization_policy.
Qed.

Lemma filter_all {A} (f : A -> bool) (l : list A) :
  (forall x, In x l -> f x = true) -> List.filter f l = l.
Proof.
  induction l as [|a l IH]; simpl; [done|]. intros Hall.
  rewrite (Hall a) by by left. f_equal. apply IH. intros x Hx.
  apply Hall. by right.
Qed.

Lemma filter_nothing {A} (f : A -> bool) (l : list A) :
  (forall x, In x l -> f x = false) -> List.filter f l = [].
Proof.
  induction l as [|a l IH]; simpl; [done|]. intros Hall.
  rewrite (Hall a) by by left. apply IH. intros x Hx. apply Hall. by right.
Qed.

Lemma filter_shorter_iff {A} (f : A -> bool) (l : list A) :
  (length (List.filter f l) <? length l)%nat = false
  <-> forall x, In x l -> f x = true.
Proof.
  rewrite Nat.ltb_ge. induction l as [|a l IH]; simpl; [by split|].
  pose proof (List.filter_length_le f l) as Hle.
  destruct (f a) eqn:Ha; simpl; split.
  - intros Hlen x [<-|Hx]; [done|]. apply IH; [lia|done].
  - intros Hall. apply le_n_S, IH. intros x Hx. apply Hall. by right.
  - lia.
  - intros Hall. specialize (Hall a (or_introl eq_refl)). congruence.
Qed.

(** X15. [request_decryption_authorization], of the base class or of a
    subclass with a permission policy, never changes the world, whatever the
    identifiers and the passphrases are and whether it returns or raises;
    and it makes no use of the request message. *)
Theorem request_decryption_authorization_only_reads
    (denied : UUID -> string -> option string) w
    (ids : list keypair_identifier) (request_message other_message : string)
    (passphrases : py_passphrases) :
  let self := with_authorization_policy denied EscrowApi in
  snd (request_decryption_authorization self ids request_message passphrases w)
  = w
  /\ snd (request_decryption_authorization EscrowApi ids request_message
            passphrases w) = w
  /\ request_decryption_authorization self ids other_message passphrases w
     = request_decryption_authorization self ids request_message passphrases w.
Proof.
  intros self.
  assert (forall d, snd (request_decryption_authorization
                           (with_authorization_policy d EscrowApi) ids
                           request_message passphrases w) = w) as Hsame.
  { intros d. destruct ids as [|x ids].
    - unfold request_decryption_authorization, bind, assert_.
      by destruct (isinstance_tuple_or_list _).
    - by rewrite request_decryption_authorization_policy. }
  split; [apply Hsame|]. split; [|done].
  rewrite EscrowApi_denies_nothing. apply Hsame.
Qed.

(** X14. With passphrases given as a list, where loading a stored private
    key of the request with [None] or a supplied passphrase either returns a
    truthy key or fails with [KeyLoadingError] (nothing is asked of the
    loader elsewhere), the request has no errors exactly when every
    identifier is authorized and has a stored private key that [None] or a
    supplied passphrase loads; the response message is then "Decryption
    request accepted", and in no other case, and the [accepted] list is the
    whole request. *)
Theorem request_accepted_iff_every_key_usable
    (denied : UUID -> string -> option string) w
    (ids : list keypair_identifier) (request_message : string)
    (supplied : list string) :
  ids <> [] ->
  loading_contract_on denied (key_storage w) ids supplied ->
  let ks := key_storage w in
  exists r,
    request_decryption_authorization (with_authorization_policy denied EscrowApi)
      ids request_message (PyList supplied) w = (Return r, w)
    /\ (has_errors r = false
        <-> forall x, In x ids ->
              status_of denied ks supplied x = StatusAccepted)
    /\ (response_message r = "Decryption request accepted"
        <-> has_errors r = false)
    /\ (has_errors r = false -> accepted (keypair_statuses r) = ids).
Proof.
  intros Hne Hc ks.
  assert (exists r,
    request_decryption_authorization
      (with_authorization_policy denied EscrowApi) ids request_message
      (PyList supplied) w = (Return r, w)
    /\ has_errors r
       = (length (with_status denied ks supplied StatusAccepted ids)
          <? length ids)%nat
    /\ accepted (keypair_statuses r)
       = with_status denied ks supplied StatusAccepted ids
    /\ response_message r = (if has_errors r then "Decryption request denied"
                             else "Decryption request accepted"))
    as (r & Hr & Herr & Hacc & Hmsg).
  { rewrite request_decryption_authorization_policy_nonempty by done.
    rewrite or_empty_list_PyList. cbn [isinstance_tuple_or_list].
    rewrite first_error_all_return.
    2:{ intros y Hy. by rewrite (outcome_of_list _ _ _ _ _ Hc Hy). }
    cbv zeta. unfold ks. rewrite (extend_statuses_list _ _ _ _ Hc).
    eexists. split; [reflexivity|]. done. }
  exists r. split; [done|].
  assert (has_errors r = false
          <-> forall x, In x ids ->
                status_of denied ks supplied x = StatusAccepted) as Hiff.
  { rewrite Herr. unfold with_status. rewrite filter_shorter_iff.
    split; intros Hall x Hx; specialize (Hall x Hx).
    - by apply bool_decide_eq_true in Hall.
    - by apply bool_decide_eq_true. }
  split; [done|]. split.
  - rewrite Hmsg. destruct (has_errors r); split; done.
  - intros Hok. rewrite Hacc. apply filter_all. intros x Hx.
    apply bool_decide_eq_true. by apply Hiff.
Qed.

Lemma outcome_of_tuple ks (items : list string) x :
  items <> [] ->
  outcome_of (fun _ _ => None) ks (PyTuple items) x
  = match cached_keypairs ks !! (keychain_uid x, key_algo x) with
    | None => Return StatusMissingPrivateKey
    | Some _ =>
        Raise (Exn TypeError (concat_type_error "tuple"))
    end.
Proof.
  intros Hne. unfold outcome_of.
  by destruct (cached_keypairs ks !! _).
Qed.

(** X13. With a non-empty tuple as [passphrases], which the assertion of
    [request_decryption_authorization] accepts, the call of the base class
    raises [TypeError] as soon as one identifier has a stored private key,
    leaving the world as it is; only when no identifier has one does it
    return, every identifier being in [missing_private_key].
    [decrypt_with_private_key] raises [TypeError] likewise when the private
    key is stored. *)
Theorem tuple_passphrases_raise_type_error w (ids : list keypair_identifier)
    (request_message : string) (items : list string) :
  items <> [] ->
  ids <> [] ->
  let ks := key_storage w in
  let run := request_decryption_authorization EscrowApi ids request_message
               (PyTuple items) w in
  ((exists x kp, In x ids
                 /\ cached_keypairs ks !! (keychain_uid x, key_algo x) = Some kp)
   -> raises (fst run) TypeError /\ snd run = w)
  /\ ((forall x, In x ids ->
          cached_keypairs ks !! (keychain_uid x, key_algo x) = None)
      -> exists r, run = (Return r, w)
                   /\ keypair_statuses r = mkStatuses ids [] [] []
                   /\ has_errors r = true)
  /\ (forall (self : EscrowApiClass) uid kp (cipherdict : Cipherdict),
        cached_keypairs ks !! (uid, "RSA_OAEP") = Some kp ->
        raises (fst (decrypt_with_private_key self uid "RSA_OAEP" cipherdict
                       (PyTuple items) w)) TypeError).
Proof.
  intros Hitems Hne ks run.
  assert (or_empty_list (PyTuple items) = PyTuple items) as Hor
    by by destruct items.
  assert (run
    = (match first_error (fun _ _ => None) ks (PyTuple items) ids with
       | Some e => Raise e
       | None =>
           let st := extend_statuses (fun _ _ => None) ks (PyTuple items)
                       (mkStatuses [] [] [] []) ids in
           let has_errors := (length (accepted st) <? length ids)%nat in
           Return (mkAuthorizationResult
                     (if has_errors then "Decryption request denied"
                      else "Decryption request accepted")
                     has_errors st)
       end, w)) as Hrun.
  { unfold run. rewrite EscrowApi_denies_nothing.
    destruct ids as [|x0 ids0]; [done|].
    rewrite request_decryption_authorization_policy. by rewrite Hor. }
  split; [|split].
  - intros (x & kp & Hx & Hkp). rewrite Hrun.
    assert (first_error (fun _ _ => None) ks (PyTuple items) ids
            = Some (Exn TypeError (concat_type_error "tuple"))) as ->.
    { clear Hrun Hne. induction ids as [|y ids IH]; [done|]. simpl.
      rewrite outcome_of_tuple by done.
      destruct Hx as [->|Hx].
      - by rewrite Hkp.
      - destruct (cached_keypairs ks !! (keychain_uid y, key_algo y));
          [done|]. by apply IH. }
    split; [by eexists|done].
  - intros Habs. rewrite Hrun.
    assert (forall x, In x ids ->
              outcome_of (fun _ _ => None) ks (PyTuple items) x
              = Return StatusMissingPrivateKey) as Hout.
    { intros x Hx. rewrite outcome_of_tuple by done. by rewrite (Habs x Hx). }
    rewrite first_error_all_return.
    2:{ intros x Hx. by rewrite (Hout x Hx). }
    eexists. split; [reflexivity|]. cbn [keypair_statuses has_errors].
    unfold extend_statuses. cbn [missing_private_key authorization_missing
      missing_passphrase accepted app].
    rewrite (filter_all (has_outcome _ _ _ StatusMissingPrivateKey)).
    2:{ intros x Hx. unfold has_outcome. by rewrite (Hout x Hx). }
    rewrite !filter_nothing;
      try (intros x Hx; unfold has_outcome; by rewrite (Hout x Hx)).
    split; [done|]. by destruct ids.
  - intros self uid kp cipherdict Hkp.
    unfold decrypt_with_private_key, bind, assert_, ret, raise, lift,
      get_private_key, ks_get_private_key.
    simpl. rewrite Hor. simpl. fold ks. rewrite Hkp. simpl. by eexists.
Qed.

End ApiProofs.

(** * The further properties at work on the small instance *)

Section MoreWitnesses.
#[local] Existing Instance Toy.primitives.

Lemma toy_generation_never_fails : generation_never_fails.
Proof. intros algo g. eexists _, _. reflexivity. Defined.

Lemma generator_returns_false_iff_pools_full_witness :
  ["DSA_DSS"] <> []
  /\ generate_free_keypair_for_least_provisioned_key_algo 1
       default_key_generation_func ["DSA_DSS"] Toy.world1
     = (Return false, Toy.world1).
Proof.
  split; [discriminate|].
  destruct (generator_returns_false_iff_pools_full 1
              default_key_generation_func ["DSA_DSS"] Toy.world1)
    as [[_ Hfull] Hsame]; [discriminate|].
  assert (forall a, In a ["DSA_DSS"] ->
            (1 <= Z.of_nat (count_in Toy.world1 a))%Z) as Hall.
  { intros a [<-|[]]. vm_compute. discriminate. }
  specialize (Hfull Hall). specialize (Hsame Hfull).
  destruct (generate_free_keypair_for_least_provisioned_key_algo 1
              default_key_generation_func ["DSA_DSS"] Toy.world1) as [r w'].
  simpl in *. by subst.
Defined.

Lemma task_sleeps_iff_pools_full_witness :
  ["DSA_DSS"] <> []
  /\ free_keypair_generator_task 1 30%nat default_key_generation_func
       ["DSA_DSS"] (Toy.world1, [10%nat])
     = (Return false, (Toy.world1, [10%nat; 30%nat])).
Proof.
  split; [discriminate|].
  destruct (task_sleeps_iff_pools_full 1 30%nat default_key_generation_func
              ["DSA_DSS"] Toy.world1 [10%nat]) as [Hfull _]; [discriminate|].
  apply Hfull. intros a [<-|[]]. vm_compute. discriminate.
Defined.

Lemma task_fills_pools_witness :
  ["DSA_DSS"; "ECC_DSS"] <> []
  /\ List.NoDup ["DSA_DSS"; "ECC_DSS"]
  /\ generation_never_fails
  /\ exists w',
       run_task_times 3 2 30%nat default_key_generation_func
         ["DSA_DSS"; "ECC_DSS"] (Toy.world1, [])
       = (Return [true; true; true], (w', []))
       /\ count_in w' "DSA_DSS" = 2%nat
       /\ count_in w' "ECC_DSS" = 2%nat
       /\ count_in w' "RSA_OAEP" = 0%nat
       /\ free_keypair_generator_task 2 30%nat default_key_generation_func
            ["DSA_DSS"; "ECC_DSS"] (w', [])
          = (Return false, (w', [30%nat])).
Proof.
  assert (List.NoDup ["DSA_DSS"; "ECC_DSS"]) as Hnodup.
  { repeat (constructor; [simpl; intuition discriminate|]). constructor. }
  split; [discriminate|]. split; [exact Hnodup|].
  split; [exact toy_generation_never_fails|].
  pose proof (task_fills_pools 2 30%nat ["DSA_DSS"; "ECC_DSS"] Toy.world1 []
                ltac:(discriminate) Hnodup toy_generation_never_fails) as H.
  cbv zeta in H.
  assert (deficit 2 (key_storage Toy.world1) ["DSA_DSS"; "ECC_DSS"] = 3%nat)
    as Hd by (vm_compute; reflexivity).
  rewrite Hd in H. destruct H as (w' & Hrun & Hin & Hout & _ & Hnext).
  exists w'. split; [exact Hrun|].
  split; [rewrite Hin by (simpl; tauto); vm_compute; reflexivity|].
  split; [rewrite Hin by (simpl; tauto); vm_compute; reflexivity|].
  split; [|exact Hnext].
  rewrite Hout; [vm_compute; reflexivity|]. simpl. intuition discriminate.
Defined.

Lemma generate_keypair_for_storage_round_trip_witness :
  let kp := Keypair (repeat x2a 8) (x01 :: repeat x2b 8) in
  generate_uuid0 (entropy Toy.world1) = (7%N, 8%nat)
  /\ generate_keypair "RSA_OAEP" (Some "secret") 8%nat = (Return kp, 9%nat)
  /\ cached_keypairs (key_storage Toy.world1) !! (7%N, "RSA_OAEP") = None
  /\ generate_keypair_for_storage "RSA_OAEP" None (Some "secret") Toy.world1
     = (Return kp, world_after_generate Toy.world1 7%N "RSA_OAEP" kp 9%nat)
  /\ get_private_key 7%N "RSA_OAEP"
       (world_after_generate Toy.world1 7%N "RSA_OAEP" kp 9%nat)
     = (Return (x01 :: repeat x2b 8),
        world_after_generate Toy.world1 7%N "RSA_OAEP" kp 9%nat).
Proof.
  intros kp. split; [reflexivity|]. split; [reflexivity|].
  split; [vm_compute; reflexivity|].
  destruct (generate_keypair_for_storage_round_trip Toy.world1 "RSA_OAEP"
              None (Some "secret") 7%N 8%nat kp 9%nat)
    as (Hrun & _ & Hpriv & _); [reflexivity|reflexivity|vm_compute; reflexivity|].
  split; [exact Hrun|exact Hpriv].
Defined.

Lemma generate_keypair_for_storage_never_overwrites_witness :
  cached_keypairs (key_storage Toy.world1) !! (1%N, "RSA_OAEP")
  = Some Toy.plain_pair
  /\ exists msg,
       generate_keypair_for_storage "RSA_OAEP" (Some 1%N) None Toy.world1
       = (Raise (Exn KeyAlreadyExists msg), mkWorld Toy.storage1 8%nat).
Proof.
  split; [vm_compute; reflexivity|].
  apply (generate_keypair_for_storage_never_overwrites Toy.world1 "RSA_OAEP"
           1%N None Toy.plain_pair (Keypair (repeat x2a 7) (x00 :: repeat x2b 7)));
    [vm_compute; reflexivity|reflexivity].
Defined.

Lemma escrow_api_keeps_stored_keypairs_witness :
  (2%N, "RSA_OAEP") <> (9%N, "DSA_DSS")
  /\ cached_keypairs
       (key_storage (snd (fetch_public_key EscrowApi 9%N "DSA_DSS" false
                            Toy.world1))) !! (2%N, "RSA_OAEP")
     = Some Toy.locked_pair
  /\ key_storage (snd (get_message_signature EscrowApi 1%N [x61] "RSA_OAEP"
                         Toy.world1)) = Toy.storage1.
Proof.
  split; [discriminate|].
  pose proof (escrow_api_keeps_stored_keypairs Toy.world1 9%N "DSA_DSS" false
                [x61] (2%N, "RSA_OAEP")) as [Hother _].
  pose proof (escrow_api_keeps_stored_keypairs Toy.world1 1%N "RSA_OAEP" false
                [x61] (2%N, "RSA_OAEP")) as [_ Hsame].
  split.
  - destruct Hother as [Hfetch _]; [discriminate|].
    etransitivity; [exact Hfetch|vm_compute; reflexivity].
  - apply (Hsame Toy.plain_pair). vm_compute. reflexivity.
Defined.

Lemma fetch_public_key_is_stable_witness :
  let w' := world_after_attach Toy.world1 9%N "DSA_DSS" Toy.plain_pair [] in
  fetch_public_key EscrowApi 9%N "DSA_DSS" false Toy.world1
  = (Return [x10], w')
  /\ fetch_public_key EscrowApi 9%N "DSA_DSS" false w' = (Return [x10], w')
  /\ fetch_public_key ReadonlyEscrowApi 9%N "DSA_DSS" true w'
     = (Return [x10], w').
Proof.
  intros w'.
  assert (fetch_public_key EscrowApi 9%N "DSA_DSS" false Toy.world1
          = (Return [x10], w')) as Hrun by (vm_compute; reflexivity).
  split; [exact Hrun|].
  split.
  - apply (fetch_public_key_is_stable _ _ _ _ _ _ Hrun false).
  - apply (fetch_public_key_is_stable _ _ _ _ _ _ Hrun true).
Defined.

Lemma signature_key_is_the_stored_keypair_witness :
  let w' := mkWorld (key_storage (world_after_attach Toy.world1 9%N "DSA_DSS"
                                    Toy.plain_pair [])) 8%nat in
  get_message_signature EscrowApi 9%N [x61] "DSA_DSS" Toy.world1
  = (Return ([x61], 2%nat), w')
  /\ exists kp k g,
       cached_keypairs (key_storage w') !! (9%N, "DSA_DSS") = Some kp
       /\ load_asymmetric_key_from_pem_bytestring (private_key kp) "DSA_DSS"
            None = Return k
       /\ sign_message [x61] "DSA_DSS" k g = (Return ([x61], 2%nat), entropy w')
       /\ fetch_public_key EscrowApi 9%N "DSA_DSS" true w'
          = (Return (public_key kp), w').
Proof.
  intros w'.
  assert (get_message_signature EscrowApi 9%N [x61] "DSA_DSS" Toy.world1
          = (Return ([x61], 2%nat), w')) as Hrun by (vm_compute; reflexivity).
  split; [exact Hrun|].
  exact (signature_key_is_the_stored_keypair _ _ _ _ _ _ Hrun).
Defined.

Lemma readonly_get_message_signature_never_creates_witness :
  (length [x61] <= 128)%nat
  /\ cached_keypairs (key_storage Toy.world1) !! (9%N, "DSA_DSS") = None
  /\ get_message_signature ReadonlyEscrowApi 9%N [x61] "DSA_DSS" Toy.world1
     = (Raise (Exn KeyDoesNotExist
         "Keypair 00000000-0000-0000-0000-000000000009/DSA_DSS not found in escrow api"),
        Toy.world1).
Proof.
  split; [simpl; lia|]. split; [vm_compute; reflexivity|].
  destruct (readonly_get_message_signature_never_creates Toy.world1 9%N [x61]
              "DSA_DSS") as [_ Hmissing].
  rewrite Hmissing; [vm_compute; reflexivity|simpl; lia|vm_compute; reflexivity].
Defined.

Lemma readonly_agrees_when_keypair_stored_witness :
  cached_keypairs (key_storage Toy.world1) !! (1%N, "RSA_OAEP")
  = Some Toy.plain_pair
  /\ fetch_public_key ReadonlyEscrowApi 1%N "RSA_OAEP" false Toy.world1
     = fetch_public_key EscrowApi 1%N "RSA_OAEP" false Toy.world1
  /\ get_message_signature ReadonlyEscrowApi 1%N [x61] "RSA_OAEP" Toy.world1
     = get_message_signature EscrowApi 1%N [x61] "RSA_OAEP" Toy.world1.
Proof.
  split; [vm_compute; reflexivity|].
  apply (readonly_agrees_when_keypair_stored Toy.world1 1%N "RSA_OAEP"
           Toy.plain_pair false [x61]).
  vm_compute. reflexivity.
Defined.

Lemma decrypt_with_private_key_only_reads_witness :
  upper "rsa_oaep" = "RSA_OAEP"
  /\ (forall s, PyList ["secret"] = PyStr s -> s = EmptyString)
  /\ cached_keypairs (key_storage Toy.world1) !! (1%N, "rsa_oaep") = None
  /\ raises (fst (decrypt_with_private_key EscrowApi 1%N "rsa_oaep" [x61]
                    (PyList ["secret"]) Toy.world1)) KeyDoesNotExist
  /\ ascii_only "RSA_PSS" = true
  /\ upper "RSA_PSS" <> "RSA_OAEP"
  /\ raises (fst (decrypt_with_private_key EscrowApi 1%N "RSA_PSS" [x61]
                    (PyList ["secret"]) Toy.world1)) AssertionError.
Proof.
  destruct (decrypt_with_private_key_only_reads EscrowApi Toy.world1 1%N
              "rsa_oaep" [x61] (PyList ["secret"])) as (_ & _ & Hmissing).
  destruct (decrypt_with_private_key_only_reads EscrowApi Toy.world1 1%N
              "RSA_PSS" [x61] (PyList ["secret"])) as (_ & Hassert & _).
  split; [reflexivity|]. split; [discriminate|].
  split; [vm_compute; reflexivity|].
  split; [apply Hmissing; [reflexivity|discriminate|vm_compute; reflexivity]|].
  split; [reflexivity|]. split; [discriminate|].
  apply Hassert; [reflexivity|discriminate].
Defined.

Lemma more_passphrases_keep_the_key_witness :
  cached_keypairs (key_storage Toy.world1) !! (2%N, "RSA_OAEP")
  = Some Toy.locked_pair
  /\ _decrypt_private_key_pem_with_passphrases (private_key Toy.locked_pair)
       "RSA_OAEP" (PyList ["secret"]) = Return 1%nat
  /\ decrypt_with_private_key EscrowApi 2%N "RSA_OAEP" [x61]
       (PyList (["secret"] ++ ["wrong"; "other"])%list) Toy.world1
     = (Return [x61], Toy.world1).
Proof.
  split; [vm_compute; reflexivity|]. split; [vm_compute; reflexivity|].
  destruct (more_passphrases_keep_the_key EscrowApi Toy.world1 2%N [x61]
              Toy.locked_pair ["secret"] ["wrong"; "other"] 1%nat)
    as (_ & Hmore & _); [vm_compute; reflexivity|vm_compute; reflexivity|].
  exact Hmore.
Defined.

Lemma decryption_key_is_the_fetched_keypair_witness :
  let w' := world_after_generate Toy.world1 9%N "RSA_OAEP"
              (Keypair (repeat x2a 7) (x00 :: repeat x2b 7)) 8%nat in
  fetch_public_key EscrowApi 9%N "RSA_OAEP" false Toy.world1
  = (Return (repeat x2a 7), w')
  /\ decrypt_with_private_key EscrowApi 9%N "RSA_OAEP" [x61]
       (PyList ["wrong"]) w' = (Return [x61], w').
Proof.
  intros w'.
  assert (fetch_public_key EscrowApi 9%N "RSA_OAEP" false Toy.world1
          = (Return (repeat x2a 7), w')) as Hrun by (vm_compute; reflexivity).
  split; [exact Hrun|].
  destruct (decryption_key_is_the_fetched_keypair _ _ _ _ _ Hrun)
    as (kp & _ & Hkp & Hdec).
  assert (kp = Keypair (repeat x2a 7) (x00 :: repeat x2b 7)) as ->.
  { vm_compute in Hkp. by injection Hkp as <-. }
  apply (Hdec EscrowApi [x61] ["wrong"] 7%nat). reflexivity.
Defined.

Lemma request_accepted_iff_every_key_usable_witness :
  [Toy.id1; Toy.id2] <> []
  /\ loading_contract_on Toy.deny4 (key_storage Toy.world1)
       [Toy.id1; Toy.id2] ["secret"]
  /\ exists r,
       request_decryption_authorization
         (with_authorization_policy Toy.deny4 EscrowApi) [Toy.id1; Toy.id2]
         "please" (PyList ["secret"]) Toy.world1 = (Return r, Toy.world1)
       /\ has_errors r = false
       /\ response_message r = "Decryption request accepted"
       /\ accepted (keypair_statuses r) = [Toy.id1; Toy.id2].
Proof.
  split; [discriminate|]. split; [apply toy_loading_contract_on|].
  destruct (request_accepted_iff_every_key_usable Toy.deny4 Toy.world1
              [Toy.id1; Toy.id2] "please" ["secret"])
    as (r & Hr & Herr & Hmsg & Hacc);
    [discriminate|apply toy_loading_contract_on|].
  assert (has_errors r = false) as Hok.
  { apply Herr. intros x [<-|[<-|[]]]; vm_compute; reflexivity. }
  exists r. split; [exact Hr|]. split; [exact Hok|].
  split; [by apply Hmsg|by apply Hacc].
Defined.

Lemma tuple_passphrases_raise_type_error_witness :
  ["secret"] <> []
  /\ [Toy.id3; Toy.id2] <> []
  /\ raises (fst (request_decryption_authorization EscrowApi [Toy.id3; Toy.id2]
                    "please" (PyTuple ["secret"]) Toy.world1)) TypeError
  /\ exists r,
       request_decryption_authorization EscrowApi [Toy.id3; Toy.id4] "please"
         (PyTuple ["secret"]) Toy.world1 = (Return r, Toy.world1)
       /\ keypair_statuses r = mkStatuses [Toy.id3; Toy.id4] [] [] []
       /\ has_errors r = true.
Proof.
  split; [discriminate|]. split; [discriminate|].
  destruct (tuple_passphrases_raise_type_error Toy.world1 [Toy.id3; Toy.id2]
              "please" ["secret"]) as (Hstored & _ & _);
    [discriminate|discriminate|].
  destruct (tuple_passphrases_raise_type_error Toy.world1 [Toy.id3; Toy.id4]
              "please" ["secret"]) as (_ & Habsent & _);
    [discriminate|discriminate|].
  split.
  - apply Hstored. exists Toy.id2, Toy.locked_pair.
    split; [simpl; tauto|vm_compute; reflexivity].
  - apply Habsent. intros x [<-|[<-|[]]]; vm_compute; reflexivity.
Defined.

End MoreWitnesses.
